(** * HW_OOP_6: accounts, transfers and verified payments

    A shallow embedding of [HW_OOP_6.py].

    - Python objects live in a heap indexed by references, so that two
      names for one [BankAccount] (a self-transfer, a mapping with two keys
      for one account) are two references to one cell.
    - [float] is IEEE 754 binary64, as Python's [float]; arithmetic and
      comparisons are the primitive ones.
    - A method is a computation in a state-and-exception monad over the
      heap and the lines printed so far: a raised exception keeps the state
      reached when it was raised. *)

From Stdlib Require Import Floats ZArith QArith.
From stdpp Require Import gmap strings pretty.

Set Warnings "-inexact-float".

Local Open Scope string_scope.

(** ** Strings *)

(** [str.lower] is a builtin of the language, not code of the program: it is
    taken as a parameter, with the one property of it that the program's
    behaviour depends on (lowercasing neither creates nor removes the empty
    string). Strings stand for their UTF-8 encoding. *)
Class StrLower := {
  lower : string → string;
  lower_empty : ∀ s : string, lower s = EmptyString ↔ s = EmptyString;
}.

(** The ASCII instance: [A]..[Z] to [a]..[z], every other character kept.
    It agrees with [str.lower] on ASCII text. *)
Definition ascii_lower (c : Ascii.ascii) : Ascii.ascii :=
  let n := Ascii.N_of_ascii c in
  if ((65 <=? n) && (n <=? 90))%N then Ascii.ascii_of_N (n + 32) else c.

Fixpoint string_lower (s : string) : string :=
  match s with
  | EmptyString => EmptyString
  | String c s' => String (ascii_lower c) (string_lower s')
  end.

#[export] Instance AsciiLower : StrLower.
Proof.
  refine {| lower := string_lower |}.
  intros s. destruct s; simpl; split; intros E; (reflexivity || discriminate E).
Defined.

(** ** Objects, heap and the monad of methods *)

Definition loc := positive.

(** The four attributes set by [__init__]. The stored e-mail may be absent
    ([None]): [verify_paypal_email] guards against it. *)
Record BankAccount := {
  _id : string;
  _balance : float;
  _credit_card_number : string;
  _paypal_email : option string;
}.

(** Assignment to the attribute [_balance]. *)
Definition with_balance (a : BankAccount) (value : float) : BankAccount :=
  {| _id := _id a;
     _balance := value;
     _credit_card_number := _credit_card_number a;
     _paypal_email := _paypal_email a |}.

(** A [dict] with string keys: the items in insertion order, the keys
    distinct. *)
Definition dict := list (string * loc).

Fixpoint dict_get (d : dict) (key : string) : option loc :=
  match d with
  | [] => None
  | (k, v) :: d' => if String.eqb k key then Some v else dict_get d' key
  end.

Definition dict_values (d : dict) : list loc := map snd d.

Inductive obj :=
| Account (a : BankAccount)
| Dict (d : dict).

Inductive exn :=
| KeyError (key : string)
| ValueError (msg : string)
| AttributeError
| TypeError.

Record world := World {
  heap : gmap loc obj;
  stdout : list string;
}.

Inductive outcome (A : Type) :=
| Return (a : A)
| Raise (e : exn).
Arguments Return {A} a.
Arguments Raise {A} e.

Definition M (A : Type) : Type := world → outcome A * world.

Definition ret {A} (a : A) : M A := λ w, (Return a, w).

Definition raise {A} (e : exn) : M A := λ w, (Raise e, w).

Definition bind {A B} (c : M A) (k : A → M B) : M B :=
  λ w, match c w with
       | (Return a, w') => k a w'
       | (Raise e, w') => (Raise e, w')
       end.

Declare Scope py_scope.
Delimit Scope py_scope with py.
Notation "x <- c ;; k" := (bind c (λ x, k))
  (at level 100, c at next level, right associativity) : py_scope.
Notation "c ;; k" := (bind c (λ _, k))
  (at level 100, right associativity) : py_scope.
Local Open Scope py_scope.

(** [print(line)] *)
Definition print (line : string) : M unit :=
  λ w, (Return tt, {| heap := heap w; stdout := stdout w ++ [line] |}).

(** Attribute access on the object behind a reference: only a
    [BankAccount] has the attributes and methods used by the program. *)
Definition get_account (l : loc) : M BankAccount :=
  λ w, match heap w !! l with
       | Some (Account a) => (Return a, w)
       | _ => (Raise AttributeError, w)
       end.

Definition put_account (l : loc) (a : BankAccount) : M unit :=
  λ w, (Return tt, {| heap := <[l := Account a]> (heap w); stdout := stdout w |}).

(** [accounts[key]]: subscription of a dict raises [KeyError] on an absent
    key; a [BankAccount] is not subscriptable. *)
Definition getitem (accounts : loc) (key : string) : M loc :=
  λ w, match heap w !! accounts with
       | Some (Dict d) =>
           match dict_get d key with
           | Some l => (Return l, w)
           | None => (Raise (KeyError key), w)
           end
       | _ => (Raise TypeError, w)
       end.

(** Allocation of a new object. *)
Definition alloc (o : obj) : M loc :=
  λ w, let l := fresh (dom (heap w)) in
       (Return l, {| heap := <[l := o]> (heap w); stdout := stdout w |}).

(** ** class BankAccount *)

(** [BankAccount(id, balance, credit_card_number, paypal_email)]: [__init__]
    stores its four arguments as they are. *)
Definition __init__ (id : string) (balance : float)
    (credit_card_number : string) (paypal_email : option string) : M loc :=
  alloc (Account {| _id := id;
                    _balance := balance;
                    _credit_card_number := credit_card_number;
                    _paypal_email := paypal_email |}).

(** The property [id]. *)
Definition id_getter (self : loc) : M string :=
  a <- get_account self ;; ret (_id a).

(** The property [balance]. *)
Definition balance (self : loc) : M float :=
  a <- get_account self ;; ret (_balance a).

(** The setter of [balance]. *)
Definition balance_setter (self : loc) (value : float) : M unit :=
  a <- get_account self ;;
  if (value <? 0)%float then raise (ValueError "Balance can't be negative")
  else put_account self (with_balance a value).

Definition transfer (self : loc) (amount : float) (to_account : loc) : M bool :=
  a <- get_account self ;;
  if (amount <=? 0)%float then ret false
  else if (_balance a <? amount)%float then
    (print "Insufficient funds" ;; ret false)
  else
    (* withdrawal and deposit *)
    (put_account self (with_balance a (_balance a - amount)%float) ;;
     b <- get_account to_account ;;
     put_account to_account (with_balance b (_balance b + amount)%float) ;;
     ret true).

Definition verify_credit_card (self : BankAccount) (card_number : string) : bool :=
  String.eqb card_number (_credit_card_number self).

(** [x or <the empty string>] *)
Definition or_empty (x : option string) : string :=
  match x with
  | Some s => s
  | None => EmptyString
  end.

Definition verify_paypal_email `{StrLower} (self : BankAccount) (email : string) : bool :=
  String.eqb (lower email) (lower (or_empty (_paypal_email self))).

(** ** class Payment and its two subclasses *)

Module CreditCardPayment.

Record t := mk {
  amount : float;
  from_account_id : string;
  to_account_id : string;
  card_number : string;
}.

Definition process (self : t) (accounts : loc) : M bool :=
  (* 1) the sender and the receiver object *)
  sender <- getitem accounts (from_account_id self) ;;
  receiver <- getitem accounts (to_account_id self) ;;
  (* 2) the sender's card must match *)
  s <- get_account sender ;;
  if negb (verify_credit_card s (card_number self)) then
    (print "Error: invalid credit card number" ;; ret false)
  else
    (* 3) the transfer *)
    (success <- transfer sender (amount self) receiver ;;
     (if negb success then print "Error: transfer failed" else ret tt) ;;
     ret success).

End CreditCardPayment.

Module PayPalPayment.

Record t := mk {
  amount : float;
  from_account_id : string;
  to_account_id : string;
  email : string;
}.

Definition process `{StrLower} (self : t) (accounts : loc) : M bool :=
  sender <- getitem accounts (from_account_id self) ;;
  receiver <- getitem accounts (to_account_id self) ;;
  s <- get_account sender ;;
  if negb (verify_paypal_email s (email self)) then
    (print "Error: invalid PayPal-email" ;; ret false)
  else
    (success <- transfer sender (amount self) receiver ;;
     (if negb success then print "Error: transfer failed" else ret tt) ;;
     ret success).

End PayPalPayment.

(** A payment is an object of one of the two subclasses; [process] is
    dispatched on the subclass. *)
Inductive Payment :=
| CreditCard (p : CreditCardPayment.t)
| PayPal (p : PayPalPayment.t).

Definition process `{StrLower} (p : Payment) (accounts : loc) : M bool :=
  match p with
  | CreditCard p => CreditCardPayment.process p accounts
  | PayPal p => PayPalPayment.process p accounts
  end.

Definition amount (p : Payment) : float :=
  match p with
  | CreditCard p => CreditCardPayment.amount p
  | PayPal p => PayPalPayment.amount p
  end.

Definition from_account_id (p : Payment) : string :=
  match p with
  | CreditCard p => CreditCardPayment.from_account_id p
  | PayPal p => PayPalPayment.from_account_id p
  end.

Definition to_account_id (p : Payment) : string :=
  match p with
  | CreditCard p => CreditCardPayment.to_account_id p
  | PayPal p => PayPalPayment.to_account_id p
  end.

(** ** Text of an account *)

(** The integer nearest to [n / d], ties to the even one ([0 < d]). *)
Definition round_half_even (n d : Z) : Z :=
  let q := (n / d)%Z in
  let r := (n mod d)%Z in
  match (2 * r ?= d)%Z with
  | Lt => q
  | Gt => (q + 1)%Z
  | Eq => if Z.even q then q else (q + 1)%Z
  end.

Definition two_digits (n : Z) : string :=
  (if (n <? 10)%Z then "0" else EmptyString) +:+ pretty n.

(** [f"{x:.2f}"]: the decimal with two fraction digits nearest to the exact
    value of [x], ties to even. *)
Definition format_2f (x : float) : string :=
  let sign (s : bool) := if s then "-" else EmptyString in
  match Prim2SF x with
  | S754_nan => "nan"
  | S754_infinity s => sign s +:+ "inf"
  | S754_zero s => sign s +:+ "0.00"
  | S754_finite s m e =>
      let n :=
        if (0 <=? e)%Z then (Z.pos m * 100 * 2 ^ e)%Z
        else round_half_even (Z.pos m * 100) (2 ^ (- e)) in
      sign s +:+ pretty (n / 100)%Z +:+ "." +:+ two_digits (n mod 100)%Z
  end.

(** [f"{x}"] of a string or [None]. *)
Definition format_opt (x : option string) : string :=
  match x with
  | Some s => s
  | None => "None"
  end.

Definition __str__ (self : BankAccount) : string :=
  "BankAccount(id=" +:+ _id self +:+
  ", balance=" +:+ format_2f (_balance self) +:+
  ", card=" +:+ _credit_card_number self +:+
  ", paypal=" +:+ format_opt (_paypal_email self) +:+ ")".

(** ** The driver *)

Definition str_bool (b : bool) : string := if b then "True" else "False".

(** [for payment in payments: ...] *)
Fixpoint process_all `{StrLower} (payments : list Payment) (accounts : loc) : M unit :=
  match payments with
  | [] => ret tt
  | payment :: rest =>
      b <- process payment accounts ;;
      print ("Successfully? " +:+ str_bool b) ;;
      print "------------------------------" ;;
      process_all rest accounts
  end.

(** [for acc in accounts.values(): print(acc)] *)
Fixpoint print_all (accs : list loc) : M unit :=
  match accs with
  | [] => ret tt
  | acc :: rest =>
      a <- get_account acc ;;
      print (__str__ a) ;;
      print_all rest
  end.

Definition values (accounts : loc) : M (list loc) :=
  λ w, match heap w !! accounts with
       | Some (Dict d) => (Return (dict_values d), w)
       | _ => (Raise AttributeError, w)
       end.

Definition main_payments : list Payment :=
  [ CreditCard (CreditCardPayment.mk 200 "A001" "A002" "1234567890123456");
    PayPal (PayPalPayment.mk 300 "A001" "A002" "wrong@example.com");
    CreditCard (CreditCardPayment.mk 900 "A002" "A001" "1111222233334444") ].

Definition main_accounts : M loc :=
  a1 <- __init__ "A001" 1000 "1234567890123456" (Some "user1@example.com") ;;
  a2 <- __init__ "A002" 500 "1111222233334444" (Some "user2@example.com") ;;
  alloc (Dict [("A001", a1); ("A002", a2)]).

Definition main `{StrLower} : M unit :=
  accounts <- main_accounts ;;
  process_all main_payments accounts ;;
  accs <- values accounts ;;
  print_all accs.

Definition empty_world : world := {| heap := ∅; stdout := [] |}.


(** ** Reading a state *)

(** The balance of the account behind a reference. *)
Definition balance_of (w : world) (l : loc) : option float :=
  match heap w !! l with
  | Some (Account a) => Some (_balance a)
  | _ => None
  end.

(** The state after a successful transfer of [amount] from the account [a]
    at [self] to the account at [to_account]: the receiver is read after the
    sender has been written. *)
Definition debited (w : world) (self : loc) (a : BankAccount) (amount : float) : world :=
  {| heap := <[self := Account (with_balance a (_balance a - amount)%float)]> (heap w);
     stdout := stdout w |}.

Definition credited (w : world) (to_account : loc) (b : BankAccount) (amount : float) : world :=
  {| heap := <[to_account := Account (with_balance b (_balance b + amount)%float)]> (heap w);
     stdout := stdout w |}.

(** The exact value of a finite float, as a rational. *)
Definition exact (x : float) : option Q :=
  match Prim2SF x with
  | S754_zero _ => Some 0%Q
  | S754_finite s m e =>
      Some ((if s then -1 else 1) * inject_Z (Z.pos m) * 2 ^ e)%Q
  | _ => None
  end.

(** Exactness of one float operation: its result is the exact result. *)
Definition exact_sub (x y : float) : Prop :=
  match exact x, exact y, exact (x - y)%float with
  | Some qx, Some qy, Some qz => (qz == qx - qy)%Q
  | _, _, _ => False
  end.

Definition exact_add (x y : float) : Prop :=
  match exact x, exact y, exact (x + y)%float with
  | Some qx, Some qy, Some qz => (qz == qx + qy)%Q
  | _, _, _ => False
  end.

(** [after] is [before] less exactly [a]; more exactly [a]; two pairs of
    balances have the same exact sum. *)
Definition decreased_by (before after a : float) : Prop :=
  match exact before, exact after, exact a with
  | Some qb, Some qa, Some q => (qb - qa == q)%Q
  | _, _, _ => False
  end.

Definition increased_by (before after a : float) : Prop :=
  match exact before, exact after, exact a with
  | Some qb, Some qa, Some q => (qa - qb == q)%Q
  | _, _, _ => False
  end.

Definition decreased_by_twice (before after a : float) : Prop :=
  match exact before, exact after, exact a with
  | Some qb, Some qa, Some q => (qb - qa == 2 * q)%Q
  | _, _, _ => False
  end.

Definition same_value (x y : float) : Prop :=
  match exact x, exact y with
  | Some qx, Some qy => (qx == qy)%Q
  | _, _ => False
  end.

Definition same_total (s r s' r' : float) : Prop :=
  match exact s, exact r, exact s', exact r' with
  | Some qs, Some qr, Some qs', Some qr' => (qs + qr == qs' + qr')%Q
  | _, _, _, _ => False
  end.

(** ** Accounts named by a payment *)

(** The check of step 2 of either variant, and its diagnostic. *)
Definition verifies `{StrLower} (p : Payment) (sender : BankAccount) : bool :=
  match p with
  | CreditCard p => verify_credit_card sender (CreditCardPayment.card_number p)
  | PayPal p => verify_paypal_email sender (PayPalPayment.email p)
  end.

Definition diagnostic (p : Payment) : string :=
  match p with
  | CreditCard _ => "Error: invalid credit card number"
  | PayPal _ => "Error: invalid PayPal-email"
  end.

Definition printed (w : world) (line : string) : world :=
  {| heap := heap w; stdout := stdout w ++ [line] |}.

(** The accounts named by a payment: the references that the mapping gives
    to its two identifiers. *)
Definition named (p : Payment) (accounts : loc) (w : world) : list loc :=
  match heap w !! accounts with
  | Some (Dict d) =>
      match dict_get d (from_account_id p), dict_get d (to_account_id p) with
      | Some sender, Some receiver => [sender; receiver]
      | _, _ => []
      end
  | _ => []
  end.

(** ** Frame of a call *)

(** What a call may change: [frame touched w w'] says that between [w] and
    [w'] no object has appeared or disappeared, every mapping is the same
    mapping, every account has kept its identifier, card number and e-mail,
    and every account outside [touched] has kept its balance as well. *)
Definition same_secrets (a a' : BankAccount) : Prop :=
  _id a' = _id a ∧
  _credit_card_number a' = _credit_card_number a ∧
  _paypal_email a' = _paypal_email a.

Definition frame (touched : list loc) (w w' : world) : Prop :=
  ∀ l : loc,
    match heap w !! l with
    | Some (Account a) =>
        ∃ a', heap w' !! l = Some (Account a') ∧
              same_secrets a a' ∧
              (l ∉ touched → _balance a' = _balance a)
    | o => heap w' !! l = o
    end.

(** ** The invariant of balances *)

(** No account of the state has a negative balance. *)
Definition nonnegative (w : world) : Prop :=
  ∀ (l : loc) (a : BankAccount),
    heap w !! l = Some (Account a) → (_balance a <? 0)%float = false.

(** The operations of the program on a state, and a run of them. *)
Inductive op :=
| Construct (id : string) (balance : float) (credit_card_number : string)
    (paypal_email : option string)
| SetBalance (self : loc) (value : float)
| Transfer (self : loc) (amount : float) (to_account : loc)
| Process (p : Payment) (accounts : loc).

Definition run_op `{StrLower} (w : world) (o : op) : world :=
  match o with
  | Construct id balance card email => snd (__init__ id balance card email w)
  | SetBalance self value => snd (balance_setter self value w)
  | Transfer self amount to_account => snd (transfer self amount to_account w)
  | Process p accounts => snd (process p accounts w)
  end.

Definition run `{StrLower} (ops : list op) (w : world) : world :=
  fold_left run_op ops w.

(** A construction with a negative initial balance. *)
Definition constructs_negative (o : op) : bool :=
  match o with
  | Construct _ balance _ _ => (balance <? 0)%float
  | _ => false
  end.

(** ** Sample states *)

(** Two accounts, at the references 1 and 2. *)
Definition account (id : string) (balance : float) : BankAccount :=
  {| _id := id; _balance := balance;
     _credit_card_number := "4000123412341234";
     _paypal_email := Some (id +:+ "@example.com") |}.

Definition two_accounts (x y : float) : world :=
  {| heap := <[2%positive := Account (account "B" y)]>
               (<[1%positive := Account (account "A" x)]> ∅);
     stdout := [] |}.

(** [two_accounts] with a mapping of the identifiers A and B, at the
    reference 3. *)
Definition two_accounts_mapped (x y : float) : world :=
  {| heap := <[3%positive := Dict [("A", 1%positive); ("B", 2%positive)]]>
               (heap (two_accounts x y));
     stdout := [] |}.

(** The state built by the driver before its first payment, and the
    reference of its mapping. *)
Definition driver : world := snd (main_accounts empty_world).
Definition driver_accounts : loc := 3%positive.

(** ** Persistence of objects *)

(** Between [w] and [w'] every account is still an account with its
    identifier, card number and e-mail, and every mapping is the same
    mapping; new objects may have appeared. *)
Definition stable (w w' : world) : Prop :=
  ∀ l : loc,
    match heap w !! l with
    | Some (Account a) =>
        ∃ a', heap w' !! l = Some (Account a') ∧ same_secrets a a'
    | Some (Dict d) => heap w' !! l = Some (Dict d)
    | None => True
    end.

(** The object at [accounts] is the mapping [d] and every value of [d] is a
    reference to an account, as in a [dict[str, BankAccount]]. *)
Definition is_account (w : world) (l : loc) : bool :=
  match heap w !! l with
  | Some (Account _) => true
  | _ => false
  end.

Definition maps_accounts (w : world) (accounts : loc) (d : dict) : Prop :=
  heap w !! accounts = Some (Dict d) ∧
  forallb (λ item, is_account w (snd item)) d = true.

(** The line that the report of the driver prints for the object at a
    reference. *)
Definition account_text (w : world) (l : loc) : string :=
  match heap w !! l with
  | Some (Account a) => __str__ a
  | _ => EmptyString
  end.

(** Both identifiers of a payment are keys of the mapping. *)
Definition resolves (d : dict) (p : Payment) : bool :=
  match dict_get d (from_account_id p), dict_get d (to_account_id p) with
  | Some _, Some _ => true
  | _, _ => false
  end.

(** A computation whose result and whose heap depend on the heap alone, not
    on the lines printed before. *)
Definition heap_only {A : Type} (c : M A) : Prop :=
  ∀ w1 w2 : world,
    heap w1 = heap w2 →
    fst (c w1) = fst (c w2) ∧ heap (snd (c w1)) = heap (snd (c w2)).

(** ** Texts equal up to the case of letters *)

(** A second reading of case-insensitive equality, character by character,
    to compare with the equality of lowercase forms that the code computes:
    two characters are the same letter when they are equal or when one is an
    ASCII capital and the other the small letter 32 places after it. *)
Definition is_upper (c : Ascii.ascii) : bool :=
  let n := Ascii.N_of_ascii c in ((65 <=? n) && (n <=? 90))%N.

Definition same_letter (c d : Ascii.ascii) : bool :=
  let n := Ascii.N_of_ascii c in
  let m := Ascii.N_of_ascii d in
  ((n =? m) || (is_upper c && (m =? n + 32)) || (is_upper d && (n =? m + 32)))%N.

(** An ASCII text: every character is below 128. On such a text the UTF-8
    encoding is the text itself and [str.lower] is the ASCII lowercasing. *)
Fixpoint is_ascii (s : string) : bool :=
  match s with
  | EmptyString => true
  | String c s' => (Ascii.N_of_ascii c <? 128)%N && is_ascii s'
  end.

Fixpoint same_text (s t : string) : bool :=
  match s, t with
  | EmptyString, EmptyString => true
  | String c s', String d t' => same_letter c d && same_text s' t'
  | _, _ => false
  end.

(** * Properties *)

(** ** Comparisons of floats *)

Lemma SFcompare_antisym (x y : spec_float) :
  SFcompare y x = option_map CompOpp (SFcompare x y).
Proof.
  destruct x as [sx|sx| |sx mx ex], y as [sy|sy| |sy my ey]; simpl;
    try reflexivity;
    try (destruct sx; reflexivity); try (destruct sy; reflexivity);
    try (destruct sx, sy; reflexivity).
  destruct sx, sy; simpl; try reflexivity;
    rewrite (Z.compare_antisym ex ey); destruct (ex ?= ey)%Z; simpl;
    try reflexivity;
    change (Pos.compare_cont Eq my mx) with (my ?= mx)%positive;
    change (Pos.compare_cont Eq mx my) with (mx ?= my)%positive;
    rewrite (Pos.compare_antisym mx my);
    destruct (mx ?= my)%positive; reflexivity.
Qed.

Lemma ltb_zero_not_leb (a : float) :
  (0 <? a)%float = true → (a <=? 0)%float = false.
Proof.
  rewrite ltb_spec, leb_spec. unfold SFltb, SFleb.
  rewrite (SFcompare_antisym (Prim2SF 0) (Prim2SF a)).
  destruct (SFcompare (Prim2SF 0) (Prim2SF a)) as [[]|]; simpl; congruence.
Qed.

Lemma leb_not_ltb (a b : float) :
  (a <=? b)%float = true → (b <? a)%float = false.
Proof.
  rewrite ltb_spec, leb_spec. unfold SFltb, SFleb.
  rewrite (SFcompare_antisym (Prim2SF a) (Prim2SF b)).
  destruct (SFcompare (Prim2SF a) (Prim2SF b)) as [[]|]; simpl; congruence.
Qed.

(** ** Sign of a sum and of a difference *)

(** Rounding keeps the sign: the round of a non-negative integer mantissa is
    not negative. *)
Lemma binary_round_aux_nonneg (mx ex : Z) (lx : location) :
  SFltb (binary_round_aux prec emax false mx ex lx) (S754_zero false) = false.
Proof.
  unfold binary_round_aux.
  destruct (shr_fexp prec emax mx ex lx) as [mrs' e'].
  destruct (shr_fexp prec emax _ e' loc_Exact) as [mrs'' e''].
  destruct (shr_m mrs''); [reflexivity| |reflexivity].
  destruct (e'' <=? emax - prec)%Z; reflexivity.
Qed.

Lemma binary_normalize_nonneg (m e : Z) :
  (0 <= m)%Z →
  SFltb (binary_normalize prec emax m e false) (S754_zero false) = false.
Proof.
  intros Hm. destruct m as [|p|p]; [reflexivity| |lia].
  unfold binary_normalize, binary_round.
  destruct (shl_align p e _) as [mz ez]. apply binary_round_aux_nonneg.
Qed.

Lemma digits2_pos_bounds (m : positive) :
  (2 ^ (Z.pos (digits2_pos m) - 1) <= Z.pos m < 2 ^ Z.pos (digits2_pos m))%Z.
Proof.
  induction m as [m IH|m IH|]; simpl digits2_pos.
  - rewrite Pos2Z.inj_succ.
    replace (Z.succ (Z.pos (digits2_pos m)) - 1)%Z with (Z.succ (Z.pos (digits2_pos m) - 1))%Z by lia.
    rewrite !Z.pow_succ_r by lia. lia.
  - rewrite Pos2Z.inj_succ.
    replace (Z.succ (Z.pos (digits2_pos m)) - 1)%Z with (Z.succ (Z.pos (digits2_pos m) - 1))%Z by lia.
    rewrite !Z.pow_succ_r by lia. lia.
  - simpl. lia.
Qed.

Lemma iter_xO_double (m d : positive) : (2 * Z.pos m <= Z.pos (Pos.iter xO m d))%Z.
Proof.
  induction d as [|d IH] using Pos.peano_ind.
  - simpl. lia.
  - rewrite Pos.iter_succ. lia.
Qed.

(** Two valid mantissas, aligned to the smaller exponent: the one with the
    larger exponent is the larger. *)
Lemma aligned_ge (mb ma : positive) (eb ea : Z) :
  bounded prec emax mb eb = true →
  bounded prec emax ma ea = true →
  (ea < eb)%Z →
  (Z.pos ma <= Z.pos (fst (shl_align mb eb ea)))%Z.
Proof.
  unfold bounded, canonical_mantissa, fexp, emin.
  intros Hb Ha Hlt.
  apply andb_prop in Hb as [Hb _]. apply andb_prop in Ha as [Ha _].
  apply Z.eqb_eq in Hb. apply Z.eqb_eq in Ha.
  pose proof (digits2_pos_bounds mb) as Bb.
  pose proof (digits2_pos_bounds ma) as Ba.
  assert (Db : Z.pos (digits2_pos mb) = prec) by lia.
  assert (Da : (Z.pos (digits2_pos ma) <= prec)%Z) by lia.
  unfold shl_align. destruct (ea - eb)%Z as [|d|d] eqn:E; try lia.
  simpl. pose proof (iter_xO_double mb d) as Hi.
  rewrite Db in Bb.
  assert (Z.pos ma < 2 ^ prec)%Z.
  { eapply Z.lt_le_trans; [apply Ba|]. apply Z.pow_le_mono_r; lia. }
  change (2 ^ prec)%Z with (2 * 2 ^ (prec - 1))%Z in H. lia.
Qed.

Lemma SFsub_nonneg (b a : spec_float) :
  valid_binary b = true →
  valid_binary a = true →
  SFleb a (S754_zero false) = false →
  SFltb b a = false →
  SFltb (SF64sub b a) (S754_zero false) = false.
Proof.
  intros Vb Va Ha Hba.
  destruct a as [sa|sa| |sa ma ea]; try reflexivity;
    try (destruct b; reflexivity).
  - (* a is a zero *) discriminate Ha.
  - (* a is an infinity *)
    destruct sa; [discriminate Ha|].
    destruct b as [sb|sb| |sb mb eb]; try reflexivity; try discriminate Hba.
    destruct sb; [discriminate Hba | reflexivity].
  - (* a is finite *)
    destruct sa; [discriminate Ha|].
    destruct b as [sb|sb| |sb mb eb]; try reflexivity; try discriminate Hba.
    + destruct sb; [discriminate Hba | reflexivity].
    + destruct sb; [discriminate Hba|].
      unfold SF64sub, SFsub. apply binary_normalize_nonneg.
      unfold SFltb, SFcompare in Hba. simpl cond_Zopp.
      destruct (eb ?= ea)%Z eqn:E.
      * apply Z.compare_eq in E. subst eb. rewrite Z.min_id.
        unfold shl_align. rewrite Z.sub_diag. simpl.
        change (Pos.compare_cont Eq mb ma) with (mb ?= ma)%positive in Hba.
        destruct (mb ?= ma)%positive eqn:M; try discriminate Hba.
        -- apply Pos.compare_eq in M. subst. lia.
        -- apply Pos.compare_gt_iff in M. lia.
      * discriminate Hba.
      * apply Z.compare_gt_iff in E. rewrite Z.min_r by lia.
        pose proof (aligned_ge mb ma eb ea Vb Va E) as Hal.
        unfold shl_align at 2. rewrite Z.sub_diag. simpl fst. lia.
Qed.

Lemma SFadd_nonneg (r a : spec_float) :
  SFleb a (S754_zero false) = false →
  SFltb r (S754_zero false) = false →
  SFltb (SF64add r a) (S754_zero false) = false.
Proof.
  intros Ha Hr.
  destruct a as [sa|sa| |sa ma ea]; try (destruct r; reflexivity).
  - discriminate Ha.
  - destruct sa; [discriminate Ha|].
    destruct r as [sr|sr| |sr mr er]; try reflexivity.
    destruct sr; [discriminate Hr | reflexivity].
  - destruct sa; [discriminate Ha|].
    destruct r as [sr|sr| |sr mr er]; try reflexivity.
    + destruct sr; [discriminate Hr | reflexivity].
    + destruct sr; [discriminate Hr|].
      unfold SF64add, SFadd. apply binary_normalize_nonneg. simpl cond_Zopp. lia.
Qed.

Lemma sub_nonneg (b a : float) :
  (a <=? 0)%float = false → (b <? a)%float = false → (b - a <? 0)%float = false.
Proof.
  rewrite !ltb_spec, leb_spec, sub_spec. apply SFsub_nonneg; apply Prim2SF_valid.
Qed.

Lemma add_nonneg (r a : float) :
  (a <=? 0)%float = false → (r <? 0)%float = false → (r + a <? 0)%float = false.
Proof.
  rewrite !ltb_spec, leb_spec, add_spec. apply SFadd_nonneg.
Qed.

(** ** transfer *)

(** One equation for [transfer] on an account: rejection, or the debit
    followed by the credit of the object then found at [to_account]. *)
Lemma transfer_eq (w : world) (self to_account : loc) (a : BankAccount) (amount : float) :
  heap w !! self = Some (Account a) →
  transfer self amount to_account w =
    if (amount <=? 0)%float then (Return false, w)
    else if (_balance a <? amount)%float then
      (Return false, {| heap := heap w; stdout := stdout w ++ ["Insufficient funds"] |})
    else
      match heap (debited w self a amount) !! to_account with
      | Some (Account b) =>
          (Return true, credited (debited w self a amount) to_account b amount)
      | _ => (Raise AttributeError, debited w self a amount)
      end.
Proof.
  intros Hs. unfold transfer, bind, get_account. rewrite Hs.
  destruct (amount <=? 0)%float; [reflexivity|].
  destruct (_balance a <? amount)%float; [reflexivity|].
  unfold put_account at 1. fold (debited w self a amount).
  destruct (heap (debited w self a amount) !! to_account) as [[b|d]|]; reflexivity.
Qed.

(** Between two different accounts. *)
Lemma transfer_distinct (w : world) (self to_account : loc) (a b : BankAccount) (amount : float) :
  self ≠ to_account →
  heap w !! self = Some (Account a) →
  heap w !! to_account = Some (Account b) →
  (amount <=? 0)%float = false →
  (_balance a <? amount)%float = false →
  transfer self amount to_account w =
    (Return true, credited (debited w self a amount) to_account b amount).
Proof.
  intros Hne Hs Hr H0 Hb. rewrite (transfer_eq w self to_account a amount Hs), H0, Hb.
  simpl. rewrite lookup_insert_ne by exact Hne. rewrite Hr. reflexivity.
Qed.

(** To the account itself: the credit reads the balance just debited. *)
Lemma transfer_self (w : world) (self : loc) (a : BankAccount) (amount : float) :
  heap w !! self = Some (Account a) →
  (amount <=? 0)%float = false →
  (_balance a <? amount)%float = false →
  transfer self amount self w =
    (Return true,
     {| heap := <[self := Account (with_balance a (_balance a - amount + amount)%float)]> (heap w);
        stdout := stdout w |}).
Proof.
  intros Hs H0 Hb. rewrite (transfer_eq w self self a amount Hs), H0, Hb.
  simpl. rewrite lookup_insert_eq. unfold credited, debited. simpl.
  rewrite insert_insert_eq. reflexivity.
Qed.

Lemma balance_of_credited_eq (w : world) (l : loc) (b : BankAccount) (amount : float) :
  balance_of (credited w l b amount) l = Some (_balance b + amount)%float.
Proof. unfold balance_of, credited. simpl. rewrite lookup_insert_eq. reflexivity. Qed.

Lemma balance_of_credited_ne (w : world) (l l' : loc) (b : BankAccount) (amount : float) :
  l ≠ l' → balance_of (credited w l b amount) l' = balance_of w l'.
Proof. intros Hne. unfold balance_of, credited. simpl. rewrite lookup_insert_ne by exact Hne. reflexivity. Qed.

Lemma balance_of_debited_eq (w : world) (l : loc) (a : BankAccount) (amount : float) :
  balance_of (debited w l a amount) l = Some (_balance a - amount)%float.
Proof. unfold balance_of, debited. simpl. rewrite lookup_insert_eq. reflexivity. Qed.

Lemma balance_of_debited_ne (w : world) (l l' : loc) (a : BankAccount) (amount : float) :
  l ≠ l' → balance_of (debited w l a amount) l' = balance_of w l'.
Proof. intros Hne. unfold balance_of, debited. simpl. rewrite lookup_insert_ne by exact Hne. reflexivity. Qed.

(** With exact operations the transfer moves exactly the amount. *)
Lemma exact_transfer (s r amount : float) :
  exact_sub s amount → exact_add r amount →
  decreased_by s (s - amount) amount ∧
  increased_by r (r + amount) amount ∧
  same_total s r (s - amount) (r + amount).
Proof.
  unfold exact_sub, exact_add, decreased_by, increased_by, same_total.
  destruct (exact s) as [qs|]; [|intros []].
  destruct (exact amount) as [qa|]; [|intros []].
  destruct (exact (s - amount)) as [qs'|]; [|intros []].
  destruct (exact r) as [qr|]; [|intros _ []].
  destruct (exact (r + amount)) as [qr'|]; [|intros _ []].
  intros Es Er. rewrite Es, Er. repeat split; ring.
Qed.

(** C1, as stated, fails. A transfer of 0.08 from a balance of 0.21 to an
    empty account is valid and returns [True]; the sender is left with the
    float 0.21 - 0.08, which is not 0.21 less exactly 0.08, and the two
    balances then add up to 0.21000000000000002 instead of 0.21. A transfer
    of 1 from a balance of 1e16 to a balance of 1 is valid and returns
    [True]; the sender keeps 1e16 (the difference 1e16 - 1 is not a float and
    rounds back to 1e16) and the receiver has 2: the total has grown from
    1e16 + 1 to 1e16 + 2. *)
Lemma transfer_rounds :
  ((0 <? 0.08)%float = true ∧ (0.08 <=? 0.21)%float = true ∧
   ∃ w', transfer 1%positive 0.08 2%positive (two_accounts 0.21 0) = (Return true, w') ∧
         balance_of w' 1%positive = Some (0.21 - 0.08)%float ∧
         balance_of w' 2%positive = Some 0.08%float ∧
         ¬ decreased_by 0.21 (0.21 - 0.08) 0.08 ∧
         ¬ same_total 0.21 0 (0.21 - 0.08) 0.08 ∧
         ((0.21 - 0.08) + 0.08 =? 0.21 + 0)%float = false) ∧
  ((0 <? 1)%float = true ∧ (1 <=? 1e16)%float = true ∧
   ∃ w', transfer 1%positive 1 2%positive (two_accounts 1e16 1) = (Return true, w') ∧
         balance_of w' 1%positive = Some 1e16%float ∧
         balance_of w' 2%positive = Some 2%float ∧
         ¬ decreased_by 1e16 1e16 1 ∧
         ¬ same_total 1e16 1 1e16 2 ∧
         (1e16 - 1e16 =? 1)%float = false ∧
         (1e16 + 2 =? 1e16 + 1)%float = false).
Proof.
  split.
  - split; [reflexivity|]. split; [reflexivity|].
    eexists. split; [vm_compute; reflexivity|].
    split; [vm_compute; reflexivity|]. split; [vm_compute; reflexivity|].
    split; [vm_compute; intros E; discriminate E|].
    split; [vm_compute; intros E; discriminate E|].
    reflexivity.
  - split; [reflexivity|]. split; [reflexivity|].
    eexists. split; [vm_compute; reflexivity|].
    split; [vm_compute; reflexivity|]. split; [vm_compute; reflexivity|].
    split; [vm_compute; intros E; discriminate E|].
    split; [vm_compute; intros E; discriminate E|].
    split; reflexivity.
Qed.

(** C1, amended: between two different accounts and for [0 < a <= balance]
    of the sender, [transfer] returns [True], the sender's balance becomes
    the float [balance - a] and the receiver's the float [balance + a]
    (binary64 operations, each rounded to nearest); whenever neither
    operation rounds, the sender's balance has decreased by exactly [a], the
    receiver's has increased by exactly [a] and their total is conserved. *)
Theorem transfer_valid (w : world) (self to_account : loc) (a b : BankAccount)
    (amount : float) :
  self ≠ to_account →
  heap w !! self = Some (Account a) →
  heap w !! to_account = Some (Account b) →
  (0 <? amount)%float = true →
  (amount <=? _balance a)%float = true →
  ∃ w', transfer self amount to_account w = (Return true, w') ∧
        balance_of w' self = Some (_balance a - amount)%float ∧
        balance_of w' to_account = Some (_balance b + amount)%float ∧
        (exact_sub (_balance a) amount → exact_add (_balance b) amount →
         decreased_by (_balance a) (_balance a - amount) amount ∧
         increased_by (_balance b) (_balance b + amount) amount ∧
         same_total (_balance a) (_balance b)
                    (_balance a - amount) (_balance b + amount)).
Proof.
  intros Hne Hs Hr Hpos Hle.
  exists (credited (debited w self a amount) to_account b amount).
  split.
  - apply transfer_distinct; auto using ltb_zero_not_leb, leb_not_ltb.
  - split; [|split].
    + rewrite balance_of_credited_ne by (intros E; apply Hne; symmetry; exact E).
      apply balance_of_debited_eq.
    + apply balance_of_credited_eq.
    + apply exact_transfer.
Qed.

Lemma transfer_valid_witness :
  ∃ w', transfer 1%positive 200 2%positive (two_accounts 1000 500) = (Return true, w') ∧
        balance_of w' 1%positive = Some 800%float ∧
        balance_of w' 2%positive = Some 700%float ∧
        decreased_by 1000 800 200 ∧
        increased_by 500 700 200 ∧
        same_total 1000 500 800 700.
Proof.
  destruct (transfer_valid (two_accounts 1000 500) 1%positive 2%positive
              (account "A" 1000) (account "B" 500) 200)
    as (w' & Ht & Hs & Hr & Hx);
    [discriminate | reflexivity | reflexivity | reflexivity | reflexivity |].
  exists w'. split; [exact Ht|]. split; [exact Hs|]. split; [exact Hr|].
  apply Hx; vm_compute; reflexivity.
Defined.

(** C2: [transfer] returns [False] and changes no balance (no object at all)
    when [a <= 0], and when [a] exceeds the sender's balance; the receiver
    may be any object, the sender itself included. *)
Theorem transfer_rejected (w : world) (self to_account : loc) (a : BankAccount)
    (amount : float) :
  heap w !! self = Some (Account a) →
  (amount <=? 0)%float = true ∨ (_balance a <? amount)%float = true →
  ∃ w', transfer self amount to_account w = (Return false, w') ∧
        heap w' = heap w ∧
        balance_of w' self = balance_of w self ∧
        balance_of w' to_account = balance_of w to_account.
Proof.
  intros Hs Hrej. rewrite (transfer_eq w self to_account a amount Hs).
  destruct (amount <=? 0)%float eqn:H0.
  - exists w. repeat split; reflexivity.
  - destruct Hrej as [Hrej|Hrej]; [discriminate Hrej|]. rewrite Hrej.
    eexists. split; [reflexivity|]. repeat split; reflexivity.
Qed.

Lemma transfer_rejected_witness :
  (∃ w', transfer 1%positive (-5) 2%positive (two_accounts 1000 500) = (Return false, w') ∧
         heap w' = heap (two_accounts 1000 500) ∧
         balance_of w' 1%positive = balance_of (two_accounts 1000 500) 1%positive ∧
         balance_of w' 2%positive = balance_of (two_accounts 1000 500) 2%positive) ∧
  (∃ w', transfer 1%positive 1000.01 2%positive (two_accounts 1000 500) = (Return false, w') ∧
         heap w' = heap (two_accounts 1000 500) ∧
         balance_of w' 1%positive = balance_of (two_accounts 1000 500) 1%positive ∧
         balance_of w' 2%positive = balance_of (two_accounts 1000 500) 2%positive).
Proof.
  split.
  - apply (transfer_rejected (two_accounts 1000 500) 1%positive 2%positive
             (account "A" 1000) (-5)); [reflexivity | left; reflexivity].
  - apply (transfer_rejected (two_accounts 1000 500) 1%positive 2%positive
             (account "A" 1000) 1000.01); [reflexivity | right; reflexivity].
Defined.

(** C10, as stated, fails: a transfer of 0.08 from an account with balance
    0.21 to itself returns [True] and leaves the balance at
    0.21000000000000002, which is not 0.21: the difference 0.21 - 0.08 is
    rounded, and adding 0.08 back does not undo the rounding. *)
Lemma transfer_self_rounds :
  (0 <? 0.08)%float = true ∧ (0.08 <=? 0.21)%float = true ∧
  ∃ w', transfer 1%positive 0.08 1%positive (two_accounts 0.21 0) = (Return true, w') ∧
        balance_of w' 1%positive = Some 0.21000000000000002%float ∧
        (0.21000000000000002 =? 0.21)%float = false ∧
        balance_of w' 1%positive ≠ balance_of (two_accounts 0.21 0) 1%positive.
Proof.
  split; [reflexivity|]. split; [reflexivity|].
  eexists. split; [vm_compute; reflexivity|].
  split; [vm_compute; reflexivity|]. split; [reflexivity|].
  intros E.
  apply (f_equal (λ o, match o with Some x => Prim2SF x | None => S754_nan end)) in E.
  vm_compute in E. discriminate E.
Qed.

(** C10, amended: a transfer of [0 < a <= balance] from an account to
    itself is accepted and returns [True]; the balance becomes the float
    [(balance - a) + a] (the debit, then the credit of the balance just
    debited), which has the value of the old balance whenever neither
    operation rounds; no other object changes. *)
Theorem transfer_to_self (w : world) (self : loc) (a : BankAccount) (amount : float) :
  heap w !! self = Some (Account a) →
  (0 <? amount)%float = true →
  (amount <=? _balance a)%float = true →
  ∃ w', transfer self amount self w = (Return true, w') ∧
        balance_of w' self = Some (_balance a - amount + amount)%float ∧
        (∀ l, l ≠ self → heap w' !! l = heap w !! l) ∧
        (exact_sub (_balance a) amount →
         exact_add (_balance a - amount) amount →
         same_value (_balance a - amount + amount) (_balance a)).
Proof.
  intros Hs Hpos Hle. eexists. split.
  - apply (transfer_self w self a amount Hs);
      auto using ltb_zero_not_leb, leb_not_ltb.
  - split; [|split].
    + unfold balance_of. simpl. rewrite lookup_insert_eq. reflexivity.
    + intros l Hl. simpl. apply lookup_insert_ne. intros E. apply Hl. symmetry. exact E.
    + unfold exact_sub, exact_add, same_value.
      destruct (exact (_balance a)) as [qb|]; [|intros []].
      destruct (exact amount) as [qa|]; [|intros []].
      destruct (exact (_balance a - amount)) as [qd|]; [|intros []].
      destruct (exact (_balance a - amount + amount)) as [qe|]; [|intros _ []].
      intros Ed Ee. rewrite Ee, Ed. ring.
Qed.

Lemma transfer_to_self_witness :
  ∃ w', transfer 1%positive 200 1%positive (two_accounts 1000 500) = (Return true, w') ∧
        balance_of w' 1%positive = Some 1000%float ∧
        (∀ l, l ≠ 1%positive → heap w' !! l = heap (two_accounts 1000 500) !! l) ∧
        same_value 1000 1000.
Proof.
  destruct (transfer_to_self (two_accounts 1000 500) 1%positive (account "A" 1000) 200)
    as (w' & Ht & Hb & Hf & Hx); [reflexivity | reflexivity | reflexivity |].
  exists w'. split; [exact Ht|]. split; [exact Hb|]. split; [exact Hf|].
  apply Hx; vm_compute; reflexivity.
Defined.

(** ** The balance setter and construction *)

Lemma balance_setter_eq (w : world) (self : loc) (a : BankAccount) (value : float) :
  heap w !! self = Some (Account a) →
  balance_setter self value w =
    if (value <? 0)%float then (Raise (ValueError "Balance can't be negative"), w)
    else (Return tt, {| heap := <[self := Account (with_balance a value)]> (heap w);
                        stdout := stdout w |}).
Proof.
  intros Hs. unfold balance_setter, bind, get_account. rewrite Hs.
  destruct (value <? 0)%float; reflexivity.
Qed.

(** The setter refuses every negative value and leaves the state as it
    was. *)
Lemma balance_setter_negative (w : world) (self : loc) (a : BankAccount) (value : float) :
  heap w !! self = Some (Account a) →
  (value <? 0)%float = true →
  balance_setter self value w = (Raise (ValueError "Balance can't be negative"), w).
Proof. intros Hs Hv. rewrite (balance_setter_eq w self a value Hs), Hv. reflexivity. Qed.

(** The setter stores every other value. *)
Lemma balance_setter_stores (w : world) (self : loc) (a : BankAccount) (value : float) :
  heap w !! self = Some (Account a) →
  (value <? 0)%float = false →
  ∃ w', balance_setter self value w = (Return tt, w') ∧
        balance_of w' self = Some value.
Proof.
  intros Hs Hv. rewrite (balance_setter_eq w self a value Hs), Hv.
  eexists. split; [reflexivity|].
  unfold balance_of. simpl. rewrite lookup_insert_eq. reflexivity.
Qed.

(** Construction stores the balance it is given. *)
Lemma init_balance (w : world) (id : string) (value : float) (card : string)
    (email : option string) :
  ∃ l w', __init__ id value card email w = (Return l, w') ∧
          heap w !! l = None ∧
          balance_of w' l = Some value.
Proof.
  exists (fresh (dom (heap w))). eexists. split; [reflexivity|]. split.
  - apply not_elem_of_dom. apply is_fresh.
  - unfold balance_of. simpl. rewrite lookup_insert_eq. reflexivity.
Qed.

(** The setter keeps the invariant, whether it stores or refuses. *)
Lemma nonnegative_balance_setter (w : world) (self : loc) (value : float) :
  nonnegative w → nonnegative (snd (balance_setter self value w)).
Proof.
  intros Hw. destruct (heap w !! self) as [[a| ]| ] eqn:Hs.
  2,3: unfold balance_setter, bind, get_account; rewrite Hs; exact Hw.
  rewrite (balance_setter_eq w self a value Hs).
  destruct (value <? 0)%float eqn:Hv; [exact Hw|].
  intros l b. simpl. destruct (decide (self = l)) as [<-|Hne].
  - rewrite lookup_insert_eq. intros [= <-]. exact Hv.
  - rewrite lookup_insert_ne by exact Hne. apply Hw.
Qed.

(** [transfer] keeps the invariant, whatever its outcome: the debit leaves
    at least zero, the credit adds a positive amount. *)
Lemma nonnegative_transfer (w : world) (self to_account : loc) (amount : float) :
  nonnegative w → nonnegative (snd (transfer self amount to_account w)).
Proof.
  intros Hw. destruct (heap w !! self) as [[a| ]| ] eqn:Hs.
  2,3: unfold transfer, bind, get_account; rewrite Hs; exact Hw.
  rewrite (transfer_eq w self to_account a amount Hs).
  destruct (amount <=? 0)%float eqn:H0; [exact Hw|].
  destruct (_balance a <? amount)%float eqn:Hb; [exact Hw|].
  assert (Hd : nonnegative (debited w self a amount)).
  { intros l b. simpl. destruct (decide (self = l)) as [<-|Hne].
    - rewrite lookup_insert_eq. intros [= <-]. simpl. apply sub_nonneg; assumption.
    - rewrite lookup_insert_ne by exact Hne. apply Hw. }
  destruct (heap (debited w self a amount) !! to_account) as [[b| ]| ] eqn:Hr;
    simpl; try exact Hd.
  intros l c. simpl. destruct (decide (to_account = l)) as [<-|Hne].
  - rewrite lookup_insert_eq. intros [= <-]. simpl.
    apply add_nonneg; [exact H0|]. apply (Hd to_account b Hr).
  - rewrite lookup_insert_ne by exact Hne. apply Hd.
Qed.

(** Construction keeps the invariant when, and only when, the balance it is
    given is not negative. *)
Lemma nonnegative_init (w : world) (id : string) (value : float) (card : string)
    (email : option string) :
  nonnegative w →
  (nonnegative (snd (__init__ id value card email w)) ↔ (value <? 0)%float = false).
Proof.
  intros Hw. simpl. split.
  - intros Hn. apply (Hn (fresh (dom (heap w))) _ (lookup_insert_eq _ _ _)).
  - intros Hv l a. simpl. destruct (decide (fresh (dom (heap w)) = l)) as [<-|Hne].
    + rewrite lookup_insert_eq. intros [= <-]. exact Hv.
    + rewrite lookup_insert_ne by exact Hne. apply Hw.
Qed.

(** C3 at the failing input: [BankAccount("A003", -5.0, ...)] builds an
    account whose balance is -5.0, a negative balance, although the setter
    refuses the same value on the same account with "Balance can't be
    negative". [__init__] assigns [_balance] without the setter's check: the
    state before the construction has no negative balance, the state after
    it has one. *)
Theorem init_negative_balance :
  ∃ l w, __init__ "A003" (-5) "5555666677778888" (Some "user3@example.com")
           empty_world = (Return l, w) ∧
         balance_of w l = Some (-5)%float ∧
         (-5 <? 0)%float = true ∧
         nonnegative empty_world ∧
         ¬ nonnegative w ∧
         balance_setter l (-5) w = (Raise (ValueError "Balance can't be negative"), w).
Proof.
  eexists. eexists. split; [vm_compute; reflexivity|].
  split; [vm_compute; reflexivity|]. split; [reflexivity|].
  split; [intros l a E; simpl in E; rewrite lookup_empty in E; discriminate E|].
  split; [|vm_compute; reflexivity].
  intros Hn. specialize (Hn 1%positive _ eq_refl). discriminate Hn.
Qed.

(** ** Lowercase forms, character by character *)

Lemma ascii_lower_N (c : Ascii.ascii) :
  Ascii.N_of_ascii (ascii_lower c) =
    if is_upper c then (Ascii.N_of_ascii c + 32)%N else Ascii.N_of_ascii c.
Proof.
  unfold ascii_lower, is_upper. cbv zeta.
  destruct ((65 <=? Ascii.N_of_ascii c) && (Ascii.N_of_ascii c <=? 90))%N eqn:E;
    [|reflexivity].
  apply andb_prop in E as [_ E]. apply N.leb_le in E.
  apply Ascii.N_ascii_embedding. lia.
Qed.

Lemma same_letter_lower (c d : Ascii.ascii) :
  same_letter c d = true ↔ ascii_lower c = ascii_lower d.
Proof.
  assert (Hinj : ascii_lower c = ascii_lower d ↔
                 Ascii.N_of_ascii (ascii_lower c) = Ascii.N_of_ascii (ascii_lower d)).
  { split; [intros ->; reflexivity|]. intros E.
    rewrite <- (Ascii.ascii_N_embedding (ascii_lower c)), E.
    apply Ascii.ascii_N_embedding. }
  rewrite Hinj, !ascii_lower_N. unfold same_letter, is_upper. cbv zeta.
  pose proof (Ascii.N_ascii_bounded c) as Bc.
  pose proof (Ascii.N_ascii_bounded d) as Bd.
  destruct (65 <=? Ascii.N_of_ascii c)%N eqn:C1;
    destruct (Ascii.N_of_ascii c <=? 90)%N eqn:C2;
    destruct (65 <=? Ascii.N_of_ascii d)%N eqn:D1;
    destruct (Ascii.N_of_ascii d <=? 90)%N eqn:D2;
    simpl;
    rewrite ?orb_false_r, ?orb_true_iff, ?N.eqb_eq;
    try apply N.leb_le in C1; try apply N.leb_gt in C1;
    try apply N.leb_le in C2; try apply N.leb_gt in C2;
    try apply N.leb_le in D1; try apply N.leb_gt in D1;
    try apply N.leb_le in D2; try apply N.leb_gt in D2;
    lia.
Qed.

Lemma same_text_lower (s t : string) :
  same_text s t = true ↔ string_lower s = string_lower t.
Proof.
  revert t. induction s as [|c s IH]; intros [|d t]; simpl.
  - split; reflexivity.
  - split; intros E; discriminate E.
  - split; intros E; discriminate E.
  - rewrite andb_true_iff, same_letter_lower, IH. split.
    + intros [-> ->]. reflexivity.
    + intros [= -> ->]. split; reflexivity.
Qed.

(** ** Verification of credentials *)



(** Case matters for the card, not for the e-mail. *)
Example verify_cases :
  verify_credit_card (account "A" 0) "4000123412341234" = true ∧
  verify_credit_card (account "A" 0) "4000123412341235" = false ∧
  verify_credit_card
    {| _id := "C"; _balance := 0; _credit_card_number := "card-AB12";
       _paypal_email := None |} "card-ab12" = false ∧
  verify_paypal_email (account "A" 0) "a@EXAMPLE.com" = true ∧
  verify_paypal_email (account "A" 0) "b@example.com" = false.
Proof. repeat split; reflexivity. Qed.

(** ** process *)

Section Process.
Context `{StrLower}.

(** Both variants have one shape. *)
Lemma process_unfold (p : Payment) (accounts : loc) :
  process p accounts =
    (sender <- getitem accounts (from_account_id p) ;;
     receiver <- getitem accounts (to_account_id p) ;;
     s <- get_account sender ;;
     if negb (verifies p s) then (print (diagnostic p) ;; ret false)
     else
       (success <- transfer sender (amount p) receiver ;;
        (if negb success then print "Error: transfer failed" else ret tt) ;;
        ret success)).
Proof. destruct p; reflexivity. Qed.

(** [process] once the two identifiers are resolved to a sender that is
    an account. *)
Lemma process_eq (p : Payment) (accounts : loc) (w : world) (d : dict)
    (sender receiver : loc) (s : BankAccount) :
  heap w !! accounts = Some (Dict d) →
  dict_get d (from_account_id p) = Some sender →
  dict_get d (to_account_id p) = Some receiver →
  heap w !! sender = Some (Account s) →
  process p accounts w =
    if verifies p s then
      match transfer sender (amount p) receiver w with
      | (Return true, w') => (Return true, w')
      | (Return false, w') => (Return false, printed w' "Error: transfer failed")
      | (Raise e, w') => (Raise e, w')
      end
    else (Return false, printed w (diagnostic p)).
Proof.
  intros Hd Hf Ht Hs. rewrite process_unfold.
  unfold bind at 1. unfold getitem at 1. rewrite Hd, Hf.
  unfold bind at 1. unfold getitem at 1. rewrite Hd, Ht.
  unfold bind at 1. unfold get_account at 1. rewrite Hs.
  destruct (verifies p s); simpl; [|reflexivity].
  unfold bind at 1.
  destruct (transfer sender (amount p) receiver w) as [[[]|e] w']; reflexivity.
Qed.

(** [process] when an identifier is not a key of the mapping. *)
Lemma process_missing (p : Payment) (accounts : loc) (w : world) (d : dict) :
  heap w !! accounts = Some (Dict d) →
  process p accounts w =
    match dict_get d (from_account_id p), dict_get d (to_account_id p) with
    | None, _ => (Raise (KeyError (from_account_id p)), w)
    | Some _, None => (Raise (KeyError (to_account_id p)), w)
    | Some sender, Some receiver => process p accounts w
    end.
Proof.
  intros Hd.
  destruct (dict_get d (from_account_id p)) as [sender|] eqn:Hf.
  - destruct (dict_get d (to_account_id p)) as [receiver|] eqn:Ht; [reflexivity|].
    rewrite process_unfold.
    unfold bind at 1. unfold getitem at 1. rewrite Hd, Hf.
    unfold bind at 1. unfold getitem at 1. rewrite Hd, Ht. reflexivity.
  - rewrite process_unfold.
    unfold bind at 1. unfold getitem at 1. rewrite Hd, Hf. reflexivity.
Qed.

End Process.

(** ** Frame *)

Lemma frame_same_heap (touched : list loc) (w w' : world) :
  heap w' = heap w → frame touched w w'.
Proof.
  intros E l. rewrite E. destruct (heap w !! l) as [[a|d]|]; try reflexivity.
  exists a. repeat split; reflexivity.
Qed.

Lemma frame_trans (touched : list loc) (w1 w2 w3 : world) :
  frame touched w1 w2 → frame touched w2 w3 → frame touched w1 w3.
Proof.
  intros H12 H23 l. specialize (H12 l). specialize (H23 l).
  destruct (heap w1 !! l) as [[a|d]|].
  - destruct H12 as (a2 & E2 & (I2 & C2 & P2) & B2). rewrite E2 in H23.
    destruct H23 as (a3 & E3 & (I3 & C3 & P3) & B3).
    exists a3. split; [exact E3|]. split.
    + repeat split; congruence.
    + intros Hl. rewrite (B3 Hl). apply (B2 Hl).
  - rewrite H12 in H23. exact H23.
  - rewrite H12 in H23. exact H23.
Qed.

Lemma frame_put (touched : list loc) (w : world) (l : loc) (a : BankAccount)
    (value : float) (out : list string) :
  heap w !! l = Some (Account a) →
  l ∈ touched →
  frame touched w {| heap := <[l := Account (with_balance a value)]> (heap w);
                     stdout := out |}.
Proof.
  intros Hl Hin l'. simpl. destruct (decide (l = l')) as [<-|Hne].
  - rewrite Hl, lookup_insert_eq. eexists. split; [reflexivity|].
    split; [repeat split|]. intros Hn. destruct (Hn Hin).
  - rewrite lookup_insert_ne by exact Hne.
    destruct (heap w !! l') as [[a'|d]|]; try reflexivity.
    exists a'. repeat split; reflexivity.
Qed.

(** C9: [transfer] and [process], whatever their outcome, change nothing but
    the balance of the sender and of the receiver: no object appears or
    disappears, every mapping keeps its keys and the account of each key,
    every account keeps its identifier, card number and e-mail, and every
    account other than the sender and the receiver keeps its balance. *)
Theorem calls_frame `{StrLower} :
  (∀ (w : world) (self to_account : loc) (amount : float),
     frame [self; to_account] w (snd (transfer self amount to_account w))) ∧
  (∀ (p : Payment) (accounts : loc) (w : world),
     frame (named p accounts w) w (snd (process p accounts w))).
Proof.
  assert (Htransfer : ∀ (w : world) (self to_account : loc) (amount : float),
            frame [self; to_account] w (snd (transfer self amount to_account w))).
  { intros w self to_account amount.
    destruct (heap w !! self) as [[a| ]| ] eqn:Hs.
    2,3: unfold transfer, bind, get_account; rewrite Hs;
         apply frame_same_heap; reflexivity.
    rewrite (transfer_eq w self to_account a amount Hs).
    destruct (amount <=? 0)%float; [apply frame_same_heap; reflexivity|].
    destruct (_balance a <? amount)%float; [apply frame_same_heap; reflexivity|].
    assert (Hd : frame [self; to_account] w (debited w self a amount)).
    { apply frame_put; [exact Hs|]. apply list_elem_of_here. }
    destruct (heap (debited w self a amount) !! to_account) as [[b| ]| ] eqn:Hr;
      simpl; try exact Hd.
    eapply frame_trans; [exact Hd|].
    apply frame_put; [exact Hr|]. apply list_elem_of_further, list_elem_of_here. }
  split; [exact Htransfer|].
  intros p accounts w.
  destruct (heap w !! accounts) as [[ |d]| ] eqn:Hd.
  1,3: rewrite process_unfold; unfold bind at 1; unfold getitem at 1; rewrite Hd;
       apply frame_same_heap; reflexivity.
  rewrite (process_missing p accounts w d Hd). unfold named. rewrite Hd.
  destruct (dict_get d (from_account_id p)) as [sender|] eqn:Hf;
    [|apply frame_same_heap; reflexivity].
  destruct (dict_get d (to_account_id p)) as [receiver|] eqn:Ht;
    [|apply frame_same_heap; reflexivity].
  destruct (heap w !! sender) as [[s| ]| ] eqn:Hs.
  2,3: rewrite process_unfold;
       unfold bind at 1; unfold getitem at 1; rewrite Hd, Hf;
       unfold bind at 1; unfold getitem at 1; rewrite Hd, Ht;
       unfold bind at 1; unfold get_account at 1; rewrite Hs;
       apply frame_same_heap; reflexivity.
  rewrite (process_eq p accounts w d sender receiver s Hd Hf Ht Hs).
  destruct (verifies p s); [|apply frame_same_heap; reflexivity].
  pose proof (Htransfer w sender receiver (amount p)) as Hfr.
  destruct (transfer sender (amount p) receiver w) as [[[]|e] w']; exact Hfr.
Qed.

(** ** The invariant of balances over a run *)

(** [process] keeps the invariant of balances, whatever its outcome. *)
Lemma nonnegative_process `{StrLower} (p : Payment) (accounts : loc) (w : world) :
  nonnegative w → nonnegative (snd (process p accounts w)).
Proof.
  intros Hw. destruct (heap w !! accounts) as [[ |d]| ] eqn:Hd.
  1,3: rewrite process_unfold; unfold bind at 1; unfold getitem at 1; rewrite Hd;
       exact Hw.
  rewrite (process_missing p accounts w d Hd).
  destruct (dict_get d (from_account_id p)) as [sender|] eqn:Hf; [|exact Hw].
  destruct (dict_get d (to_account_id p)) as [receiver|] eqn:Ht; [|exact Hw].
  destruct (heap w !! sender) as [[s| ]| ] eqn:Hs.
  2,3: rewrite process_unfold;
       unfold bind at 1; unfold getitem at 1; rewrite Hd, Hf;
       unfold bind at 1; unfold getitem at 1; rewrite Hd, Ht;
       unfold bind at 1; unfold get_account at 1; rewrite Hs;
       exact Hw.
  rewrite (process_eq p accounts w d sender receiver s Hd Hf Ht Hs).
  destruct (verifies p s); [|exact Hw].
  pose proof (nonnegative_transfer w sender receiver (amount p) Hw) as Hn.
  destruct (transfer sender (amount p) receiver w) as [[[]|e] w']; exact Hn.
Qed.

(** X2: every run of constructions, balance assignments, transfers and
    payments that constructs no account with a negative balance keeps "no
    account has a negative balance", whatever the outcome of each operation:
    construction is the one operation that can break it. *)
Lemma nonnegative_run `{StrLower} (ops : list op) (w : world) :
  forallb (λ o, negb (constructs_negative o)) ops = true →
  nonnegative w → nonnegative (run ops w).
Proof.
  unfold run. revert w. induction ops as [|o ops IH]; intros w Hops Hw; [exact Hw|].
  simpl in Hops. apply andb_prop in Hops as [Ho Hops]. simpl.
  apply IH; [exact Hops|]. destruct o as [id v card email|self v|self a t|p accounts]; simpl.
  - apply nonnegative_init; [exact Hw|]. simpl in Ho. destruct (v <? 0)%float; [discriminate Ho | reflexivity].
  - apply nonnegative_balance_setter. exact Hw.
  - apply nonnegative_transfer. exact Hw.
  - apply nonnegative_process. exact Hw.
Qed.

(** ** Payments against the driver's accounts *)

(** C4: when both identifiers of a payment are keys of the mapping and the
    presented credential does not verify against the sender, [process]
    returns [False] after printing its diagnostic and no object is changed,
    whatever the amount and the sender's funds. *)
Theorem process_bad_credential `{StrLower} (p : Payment) (accounts : loc) (w : world)
    (d : dict) (sender receiver : loc) (s : BankAccount) :
  heap w !! accounts = Some (Dict d) →
  dict_get d (from_account_id p) = Some sender →
  dict_get d (to_account_id p) = Some receiver →
  heap w !! sender = Some (Account s) →
  verifies p s = false →
  ∃ w', process p accounts w = (Return false, w') ∧
        heap w' = heap w ∧
        stdout w' = (stdout w ++ [diagnostic p])%list.
Proof.
  intros Hd Hf Ht Hs Hv.
  rewrite (process_eq p accounts w d sender receiver s Hd Hf Ht Hs), Hv.
  eexists. repeat split; reflexivity.
Qed.

Lemma process_bad_credential_witness :
  (∃ w', process (PayPal (PayPalPayment.mk 300 "A001" "A002" "wrong@example.com"))
           driver_accounts driver = (Return false, w') ∧
         heap w' = heap driver ∧
         stdout w' = (stdout driver ++ ["Error: invalid PayPal-email"])%list) ∧
  (∃ w', process (CreditCard (CreditCardPayment.mk 5000 "A002" "A001" "1111222233334445"))
           driver_accounts driver = (Return false, w') ∧
         heap w' = heap driver ∧
         stdout w' = (stdout driver ++ ["Error: invalid credit card number"])%list).
Proof.
  split.
  - apply (process_bad_credential
             (PayPal (PayPalPayment.mk 300 "A001" "A002" "wrong@example.com"))
             driver_accounts driver
             [("A001", 1%positive); ("A002", 2%positive)] 1%positive 2%positive
             {| _id := "A001"; _balance := 1000;
                _credit_card_number := "1234567890123456";
                _paypal_email := Some "user1@example.com" |});
      reflexivity.
  - apply (process_bad_credential
             (CreditCard (CreditCardPayment.mk 5000 "A002" "A001" "1111222233334445"))
             driver_accounts driver
             [("A001", 1%positive); ("A002", 2%positive)] 2%positive 1%positive
             {| _id := "A002"; _balance := 500;
                _credit_card_number := "1111222233334444";
                _paypal_email := Some "user2@example.com" |});
      reflexivity.
Defined.

(** C6: when the source identifier or the destination identifier of a
    payment is not a key of the mapping, [process] raises [KeyError] on that
    identifier: it returns no boolean, and the state is the state before the
    call. Nothing catches the exception: the loop of the driver stops with
    it at that payment. *)
Theorem process_unknown_identifier `{StrLower} (p : Payment) (accounts : loc)
    (w : world) (d : dict) :
  heap w !! accounts = Some (Dict d) →
  dict_get d (from_account_id p) = None ∨ dict_get d (to_account_id p) = None →
  ∃ key, process p accounts w = (Raise (KeyError key), w) ∧
         (key = from_account_id p ∨ key = to_account_id p) ∧
         ∀ rest, process_all (p :: rest) accounts w = (Raise (KeyError key), w).
Proof.
  intros Hd Hmiss.
  assert (Hp : ∃ key, process p accounts w = (Raise (KeyError key), w) ∧
                      (key = from_account_id p ∨ key = to_account_id p)).
  { rewrite (process_missing p accounts w d Hd).
    destruct (dict_get d (from_account_id p)) as [sender|].
    - destruct Hmiss as [Hmiss|Hmiss]; [discriminate Hmiss|]. rewrite Hmiss.
      exists (to_account_id p). split; [reflexivity | right; reflexivity].
    - exists (from_account_id p). split; [reflexivity | left; reflexivity]. }
  destruct Hp as (key & Hp & Hkey). exists key.
  split; [exact Hp|]. split; [exact Hkey|].
  intros rest. simpl. unfold bind at 1. rewrite Hp. reflexivity.
Qed.

Lemma process_unknown_identifier_witness :
  (∃ key, process (CreditCard (CreditCardPayment.mk 200 "A009" "A002" "1234567890123456"))
            driver_accounts driver = (Raise (KeyError key), driver) ∧
          (key = "A009" ∨ key = "A002") ∧
          ∀ rest, process_all
                    (CreditCard (CreditCardPayment.mk 200 "A009" "A002" "1234567890123456")
                     :: rest) driver_accounts driver = (Raise (KeyError key), driver)) ∧
  (∃ key, process (PayPal (PayPalPayment.mk 200 "A001" "A007" "user1@example.com"))
            driver_accounts driver = (Raise (KeyError key), driver) ∧
          (key = "A001" ∨ key = "A007") ∧
          ∀ rest, process_all
                    (PayPal (PayPalPayment.mk 200 "A001" "A007" "user1@example.com")
                     :: rest) driver_accounts driver = (Raise (KeyError key), driver)).
Proof.
  split.
  - apply (process_unknown_identifier
             (CreditCard (CreditCardPayment.mk 200 "A009" "A002" "1234567890123456"))
             driver_accounts driver [("A001", 1%positive); ("A002", 2%positive)]);
      [reflexivity | left; reflexivity].
  - apply (process_unknown_identifier
             (PayPal (PayPalPayment.mk 200 "A001" "A007" "user1@example.com"))
             driver_accounts driver [("A001", 1%positive); ("A002", 2%positive)]);
      [reflexivity | right; reflexivity].
Defined.

(** C7: the driver. From A001 with 1000 and A002 with 500, the three
    payments of [main] return [True], [False], [False] in this order; the
    balances are 800 and 700 after the first and are the same after the
    second and after the third; [main] prints them as 800.00 and 700.00.
    The strings of the driver are ASCII: [lower] is the ASCII one. *)
Theorem main_scenario :
  main_payments =
    [ CreditCard (CreditCardPayment.mk 200 "A001" "A002" "1234567890123456");
      PayPal (PayPalPayment.mk 300 "A001" "A002" "wrong@example.com");
      CreditCard (CreditCardPayment.mk 900 "A002" "A001" "1111222233334444") ] ∧
  ∃ (accounts a1 a2 : loc) (w0 w1 w2 w3 w : world),
    main_accounts empty_world = (Return accounts, w0) ∧
    heap w0 !! accounts = Some (Dict [("A001", a1); ("A002", a2)]) ∧
    balance_of w0 a1 = Some 1000%float ∧
    balance_of w0 a2 = Some 500%float ∧
    process (CreditCard (CreditCardPayment.mk 200 "A001" "A002" "1234567890123456"))
      accounts w0 = (Return true, w1) ∧
    balance_of w1 a1 = Some 800%float ∧
    balance_of w1 a2 = Some 700%float ∧
    process (PayPal (PayPalPayment.mk 300 "A001" "A002" "wrong@example.com"))
      accounts w1 = (Return false, w2) ∧
    heap w2 = heap w1 ∧
    process (CreditCard (CreditCardPayment.mk 900 "A002" "A001" "1111222233334444"))
      accounts w2 = (Return false, w3) ∧
    heap w3 = heap w2 ∧
    balance_of w3 a1 = Some 800%float ∧
    balance_of w3 a2 = Some 700%float ∧
    main empty_world = (Return tt, w) ∧
    heap w = heap w3 ∧
    stdout w =
      [ "Successfully? True"; "------------------------------";
        "Error: invalid PayPal-email";
        "Successfully? False"; "------------------------------";
        "Insufficient funds"; "Error: transfer failed";
        "Successfully? False"; "------------------------------";
        "BankAccount(id=A001, balance=800.00, card=1234567890123456, paypal=user1@example.com)";
        "BankAccount(id=A002, balance=700.00, card=1111222233334444, paypal=user2@example.com)" ].
Proof.
  split; [reflexivity|].
  exists 3%positive, 1%positive, 2%positive.
  do 5 eexists.
  repeat (split; [vm_compute; reflexivity|]).
  vm_compute; reflexivity.
Qed.

(** ** Processing a payment twice *)

Lemma verifies_with_balance `{StrLower} (p : Payment) (s : BankAccount) (value : float) :
  verifies p (with_balance s value) = verifies p s.
Proof. destruct p; reflexivity. Qed.

(** A payment that passes every check, between two different accounts. *)
Lemma process_success `{StrLower} (p : Payment) (accounts : loc) (w : world)
    (d : dict) (sender receiver : loc) (s r : BankAccount) :
  heap w !! accounts = Some (Dict d) →
  dict_get d (from_account_id p) = Some sender →
  dict_get d (to_account_id p) = Some receiver →
  sender ≠ receiver →
  heap w !! sender = Some (Account s) →
  heap w !! receiver = Some (Account r) →
  verifies p s = true →
  (amount p <=? 0)%float = false →
  (_balance s <? amount p)%float = false →
  process p accounts w =
    (Return true, credited (debited w sender s (amount p)) receiver r (amount p)).
Proof.
  intros Hd Hf Ht Hne Hs Hr Hv H0 Hb.
  rewrite (process_eq p accounts w d sender receiver s Hd Hf Ht Hs), Hv.
  rewrite (transfer_distinct w sender receiver s r (amount p) Hne Hs Hr H0 Hb).
  reflexivity.
Qed.

(** C8, as stated, fails in two ways. A payment of 200 from A001 to A001
    with the right card is processed twice with [True] both times and the
    sender's balance is 1000 before and after: nothing is debited when the
    sender is the receiver. And a payment of 1 from a balance of 1e16 to
    another account is processed twice with [True] both times and the sender
    still has 1e16: each debit is rounded away. *)
Lemma process_twice_not_2a :
  (∃ w1 w2,
     process (CreditCard (CreditCardPayment.mk 200 "A001" "A001" "1234567890123456"))
       driver_accounts driver = (Return true, w1) ∧
     process (CreditCard (CreditCardPayment.mk 200 "A001" "A001" "1234567890123456"))
       driver_accounts w1 = (Return true, w2) ∧
     balance_of driver 1%positive = Some 1000%float ∧
     balance_of w2 1%positive = Some 1000%float ∧
     ¬ decreased_by_twice 1000 1000 200 ∧
     (1000 - 1000 =? 2 * 200)%float = false) ∧
  (∃ w1 w2,
     process (CreditCard (CreditCardPayment.mk 1 "A" "B" "4000123412341234"))
       3%positive (two_accounts_mapped 1e16 0) = (Return true, w1) ∧
     process (CreditCard (CreditCardPayment.mk 1 "A" "B" "4000123412341234"))
       3%positive w1 = (Return true, w2) ∧
     balance_of (two_accounts_mapped 1e16 0) 1%positive = Some 1e16%float ∧
     balance_of w2 1%positive = Some 1e16%float ∧
     balance_of w2 2%positive = Some 2%float ∧
     ¬ decreased_by_twice 1e16 1e16 1 ∧
     (1e16 - 1e16 =? 2 * 1)%float = false).
Proof.
  split.
  - do 2 eexists. repeat (split; [vm_compute; reflexivity|]).
    split; [vm_compute; intros E; discriminate E | reflexivity].
  - do 2 eexists. repeat (split; [vm_compute; reflexivity|]).
    split; [vm_compute; intros E; discriminate E | reflexivity].
Qed.

(** C8, amended: a payment of [a > 0] between two different accounts, with a
    credential that verifies and funds that suffice at both calls, is
    processed twice with [True] both times, and each call executes a
    transfer: the sender's balance becomes the float [(balance - a) - a] and
    the receiver's the float [(balance + a) + a], which is a debit of exactly
    [2 a] whenever neither subtraction rounds. *)
Theorem process_twice `{StrLower} (p : Payment) (accounts : loc) (w : world)
    (d : dict) (sender receiver : loc) (s r : BankAccount) :
  heap w !! accounts = Some (Dict d) →
  dict_get d (from_account_id p) = Some sender →
  dict_get d (to_account_id p) = Some receiver →
  sender ≠ receiver →
  heap w !! sender = Some (Account s) →
  heap w !! receiver = Some (Account r) →
  verifies p s = true →
  (0 <? amount p)%float = true →
  (amount p <=? _balance s)%float = true →
  (amount p <=? _balance s - amount p)%float = true →
  ∃ w1 w2,
    process p accounts w = (Return true, w1) ∧
    balance_of w1 sender = Some (_balance s - amount p)%float ∧
    balance_of w1 receiver = Some (_balance r + amount p)%float ∧
    process p accounts w1 = (Return true, w2) ∧
    balance_of w2 sender = Some (_balance s - amount p - amount p)%float ∧
    balance_of w2 receiver = Some (_balance r + amount p + amount p)%float ∧
    (exact_sub (_balance s) (amount p) →
     exact_sub (_balance s - amount p) (amount p) →
     decreased_by_twice (_balance s) (_balance s - amount p - amount p) (amount p)).
Proof.
  intros Hd Hf Ht Hne Hs Hr Hv Hpos Hle1 Hle2.
  pose proof (ltb_zero_not_leb _ Hpos) as H0.
  pose proof (leb_not_ltb _ _ Hle1) as Hb1.
  pose proof (leb_not_ltb _ _ Hle2) as Hb2.
  assert (Has : accounts ≠ sender) by (intros ->; congruence).
  assert (Har : accounts ≠ receiver) by (intros ->; congruence).
  set (a := amount p) in *.
  set (w1 := credited (debited w sender s a) receiver r a).
  set (s1 := with_balance s (_balance s - a)%float).
  set (r1 := with_balance r (_balance r + a)%float).
  assert (Hd1 : heap w1 !! accounts = Some (Dict d)).
  { unfold w1, credited, debited. simpl.
    rewrite lookup_insert_ne by (intros E; apply Har; symmetry; exact E).
    rewrite lookup_insert_ne by (intros E; apply Has; symmetry; exact E).
    exact Hd. }
  assert (Hs1 : heap w1 !! sender = Some (Account s1)).
  { unfold w1, credited, debited. simpl.
    rewrite lookup_insert_ne by (intros E; apply Hne; symmetry; exact E).
    apply lookup_insert_eq. }
  assert (Hr1 : heap w1 !! receiver = Some (Account r1)).
  { unfold w1, credited. simpl. apply lookup_insert_eq. }
  exists w1, (credited (debited w1 sender s1 a) receiver r1 a).
  split; [apply (process_success p accounts w d sender receiver s r); assumption|].
  split; [unfold balance_of; rewrite Hs1; reflexivity|].
  split; [unfold balance_of; rewrite Hr1; reflexivity|].
  split.
  { apply (process_success p accounts w1 d sender receiver s1 r1); try assumption.
    all: unfold s1; rewrite verifies_with_balance; exact Hv. }
  split.
  { rewrite balance_of_credited_ne by (intros E; apply Hne; symmetry; exact E).
    apply balance_of_debited_eq. }
  split; [apply balance_of_credited_eq|].
  unfold exact_sub, decreased_by_twice.
  destruct (exact (_balance s)) as [qb|]; [|intros []].
  destruct (exact a) as [qa|]; [|intros []].
  destruct (exact (_balance s - a)) as [q1|]; [|intros []].
  destruct (exact (_balance s - a - a)) as [q2|]; [|intros _ []].
  intros E1 E2. rewrite E2, E1. ring.
Qed.

Lemma process_twice_witness :
  ∃ w1 w2,
    process (CreditCard (CreditCardPayment.mk 200 "A001" "A002" "1234567890123456"))
      driver_accounts driver = (Return true, w1) ∧
    balance_of w1 1%positive = Some 800%float ∧
    balance_of w1 2%positive = Some 700%float ∧
    process (CreditCard (CreditCardPayment.mk 200 "A001" "A002" "1234567890123456"))
      driver_accounts w1 = (Return true, w2) ∧
    balance_of w2 1%positive = Some 600%float ∧
    balance_of w2 2%positive = Some 900%float ∧
    decreased_by_twice 1000 600 200.
Proof.
  destruct (process_twice
              (CreditCard (CreditCardPayment.mk 200 "A001" "A002" "1234567890123456"))
              driver_accounts driver
              [("A001", 1%positive); ("A002", 2%positive)] 1%positive 2%positive
              {| _id := "A001"; _balance := 1000;
                 _credit_card_number := "1234567890123456";
                 _paypal_email := Some "user1@example.com" |}
              {| _id := "A002"; _balance := 500;
                 _credit_card_number := "1111222233334444";
                 _paypal_email := Some "user2@example.com" |})
    as (w1 & w2 & H1 & Hs1 & Hr1 & H2 & Hs2 & Hr2 & Hx);
    [reflexivity | reflexivity | reflexivity | discriminate
    | reflexivity | reflexivity | reflexivity | reflexivity
    | reflexivity | reflexivity |].
  exists w1, w2.
  split; [exact H1|]. split; [exact Hs1|]. split; [exact Hr1|].
  split; [exact H2|]. split; [exact Hs2|]. split; [exact Hr2|].
  apply Hx; vm_compute; reflexivity.
Defined.

(** * Further properties *)

(** ** The balance property *)

(** X1: on an account, assigning a negative value to [balance] raises
    [ValueError] and leaves the whole state as it was; assigning any other
    value stores it, so that reading [balance] afterwards returns that very
    value, while the identifier, card number and e-mail of the account, every
    other object and the printed lines are unchanged. *)
Theorem balance_set_then_get (w : world) (self : loc) (a : BankAccount) (value : float) :
  heap w !! self = Some (Account a) →
  if (value <? 0)%float then
    balance_setter self value w = (Raise (ValueError "Balance can't be negative"), w)
  else
    ∃ w' a',
      balance_setter self value w = (Return tt, w') ∧
      balance self w' = (Return value, w') ∧
      heap w' !! self = Some (Account a') ∧
      same_secrets a a' ∧
      (∀ l, l ≠ self → heap w' !! l = heap w !! l) ∧
      stdout w' = stdout w.
Proof.
  intros Hs. rewrite (balance_setter_eq w self a value Hs).
  destruct (value <? 0)%float; [reflexivity|].
  eexists. exists (with_balance a value). split; [reflexivity|].
  split.
  - unfold balance, bind, get_account. simpl. rewrite lookup_insert_eq. reflexivity.
  - split; [simpl; apply lookup_insert_eq|].
    split; [repeat split|]. split; [|reflexivity].
    intros l Hl. simpl. apply lookup_insert_ne. intros E. apply Hl. symmetry. exact E.
Qed.

Lemma balance_set_then_get_witness :
  (∃ w' a',
     balance_setter 1%positive 250.5 (two_accounts 1000 500) = (Return tt, w') ∧
     balance 1%positive w' = (Return 250.5%float, w') ∧
     heap w' !! 1%positive = Some (Account a') ∧
     same_secrets (account "A" 1000) a' ∧
     (∀ l, l ≠ 1%positive → heap w' !! l = heap (two_accounts 1000 500) !! l) ∧
     stdout w' = stdout (two_accounts 1000 500)) ∧
  balance_setter 1%positive (-0.01) (two_accounts 1000 500) =
    (Raise (ValueError "Balance can't be negative"), two_accounts 1000 500).
Proof.
  split.
  - apply (balance_set_then_get (two_accounts 1000 500) 1%positive (account "A" 1000) 250.5).
    reflexivity.
  - apply (balance_set_then_get (two_accounts 1000 500) 1%positive (account "A" 1000) (-0.01)).
    reflexivity.
Defined.

Lemma nonnegative_run_witness :
  nonnegative
    (run [ Construct "A" 100 "4000123412341234" (Some "a@example.com");
           Construct "B" 0 "4000123412341235" None;
           Transfer 1%positive 100 2%positive;
           Transfer 1%positive 0.5 2%positive;
           SetBalance 2%positive (-3);
           SetBalance 1%positive 7.25;
           Transfer 2%positive 99.75 1%positive ] empty_world).
Proof.
  apply (nonnegative_run _ empty_world); [reflexivity|].
  intros l a E. simpl in E. rewrite lookup_empty in E. discriminate E.
Defined.

(** ** What a result of process tells *)

Lemma heap_only_ret {A : Type} (a : A) : heap_only (ret a).
Proof. intros w1 w2 E. split; [reflexivity | exact E]. Qed.

Lemma heap_only_bind {A B : Type} (c : M A) (k : A → M B) :
  heap_only c → (∀ a, heap_only (k a)) → heap_only (bind c k).
Proof.
  intros Hc Hk w1 w2 E. unfold bind. destruct (Hc w1 w2 E) as [Hr Hh].
  destruct (c w1) as [[a1|e1] w1'], (c w2) as [[a2|e2] w2']; simpl in Hr, Hh;
    try discriminate Hr.
  - injection Hr as ->. apply Hk. exact Hh.
  - injection Hr as ->. split; [reflexivity | exact Hh].
Qed.

Lemma heap_only_print (line : string) : heap_only (print line).
Proof. intros w1 w2 E. split; [reflexivity | exact E]. Qed.

Lemma heap_only_get_account (l : loc) : heap_only (get_account l).
Proof.
  intros w1 w2 E. unfold get_account. rewrite E.
  destruct (heap w2 !! l) as [[a|d]|]; (split; [reflexivity | exact E]).
Qed.

Lemma heap_only_put_account (l : loc) (a : BankAccount) : heap_only (put_account l a).
Proof. intros w1 w2 E. unfold put_account. simpl. rewrite E. split; reflexivity. Qed.

Lemma heap_only_getitem (accounts : loc) (key : string) : heap_only (getitem accounts key).
Proof.
  intros w1 w2 E. unfold getitem. rewrite E.
  destruct (heap w2 !! accounts) as [[a|d]|]; try (split; [reflexivity | exact E]).
  destruct (dict_get d key); (split; [reflexivity | exact E]).
Qed.

Lemma heap_only_transfer (self to_account : loc) (amount : float) :
  heap_only (transfer self amount to_account).
Proof.
  unfold transfer. apply heap_only_bind; [apply heap_only_get_account|]. intros a.
  destruct (amount <=? 0)%float; [apply heap_only_ret|].
  destruct (_balance a <? amount)%float.
  - apply heap_only_bind; [apply heap_only_print | intros _; apply heap_only_ret].
  - apply heap_only_bind; [apply heap_only_put_account|]. intros _.
    apply heap_only_bind; [apply heap_only_get_account|]. intros b.
    apply heap_only_bind; [apply heap_only_put_account | intros _; apply heap_only_ret].
Qed.

Lemma heap_only_process `{StrLower} (p : Payment) (accounts : loc) :
  heap_only (process p accounts).
Proof.
  rewrite process_unfold.
  apply heap_only_bind; [apply heap_only_getitem|]. intros sender.
  apply heap_only_bind; [apply heap_only_getitem|]. intros receiver.
  apply heap_only_bind; [apply heap_only_get_account|]. intros s.
  destruct (negb (verifies p s)).
  - apply heap_only_bind; [apply heap_only_print | intros _; apply heap_only_ret].
  - apply heap_only_bind; [apply heap_only_transfer|]. intros success.
    apply heap_only_bind; [|intros _; apply heap_only_ret].
    destruct (negb success); [apply heap_only_print | apply heap_only_ret].
Qed.

(** A transfer that returns [False] has written nothing. *)
Lemma transfer_false_heap (w : world) (self to_account : loc) (amount : float) :
  fst (transfer self amount to_account w) = Return false →
  heap (snd (transfer self amount to_account w)) = heap w.
Proof.
  destruct (heap w !! self) as [[a| ]| ] eqn:Hs.
  2,3: unfold transfer, bind, get_account; rewrite Hs; intros E; discriminate E.
  rewrite (transfer_eq w self to_account a amount Hs).
  destruct (amount <=? 0)%float; [reflexivity|].
  destruct (_balance a <? amount)%float; [reflexivity|].
  destruct (heap (debited w self a amount) !! to_account) as [[b| ]| ];
    intros E; discriminate E.
Qed.

Lemma process_false_heap `{StrLower} (p : Payment) (accounts : loc) (w : world) :
  fst (process p accounts w) = Return false →
  heap (snd (process p accounts w)) = heap w.
Proof.
  destruct (heap w !! accounts) as [[ |d]| ] eqn:Hd.
  1,3: rewrite process_unfold; unfold bind at 1; unfold getitem at 1; rewrite Hd;
       intros E; discriminate E.
  rewrite (process_missing p accounts w d Hd).
  destruct (dict_get d (from_account_id p)) as [sender|] eqn:Hf;
    [|intros E; discriminate E].
  destruct (dict_get d (to_account_id p)) as [receiver|] eqn:Ht;
    [|intros E; discriminate E].
  destruct (heap w !! sender) as [[s| ]| ] eqn:Hs.
  2,3: rewrite process_unfold;
       unfold bind at 1; unfold getitem at 1; rewrite Hd, Hf;
       unfold bind at 1; unfold getitem at 1; rewrite Hd, Ht;
       unfold bind at 1; unfold get_account at 1; rewrite Hs;
       intros E; discriminate E.
  rewrite (process_eq p accounts w d sender receiver s Hd Hf Ht Hs).
  destruct (verifies p s); [|reflexivity].
  pose proof (transfer_false_heap w sender receiver (amount p)) as Hfalse.
  destruct (transfer sender (amount p) receiver w) as [[[]|e] w']; simpl in *;
    intros E; try discriminate E.
  apply Hfalse. reflexivity.
Qed.

(** X3: a payment for which [process] returns [False] has moved nothing: no
    object of the heap is changed, whatever the reason of the failure. And
    the failure is stable: processing the same payment again returns [False]
    again and again changes nothing. *)
Theorem failed_payment_moves_nothing `{StrLower} (p : Payment) (accounts : loc)
    (w w' : world) :
  process p accounts w = (Return false, w') →
  heap w' = heap w ∧
  ∃ w'', process p accounts w' = (Return false, w'') ∧ heap w'' = heap w.
Proof.
  intros Hp.
  assert (Hh : heap w' = heap w).
  { pose proof (process_false_heap p accounts w) as Hf. rewrite Hp in Hf.
    apply Hf. reflexivity. }
  split; [exact Hh|].
  destruct (heap_only_process p accounts w' w Hh) as [Hr Hh'].
  rewrite Hp in Hr, Hh'. simpl in Hr, Hh'.
  destruct (process p accounts w') as [r w''] eqn:Hp'. simpl in Hr, Hh'.
  exists w''. subst r. split; [reflexivity|].
  rewrite Hh'. exact Hh.
Qed.

Lemma failed_payment_moves_nothing_witness :
  heap (printed (printed driver "Insufficient funds") "Error: transfer failed") =
    heap driver ∧
  ∃ w'', process (CreditCard (CreditCardPayment.mk 900 "A002" "A001" "1111222233334444"))
           driver_accounts
           (printed (printed driver "Insufficient funds") "Error: transfer failed") =
           (Return false, w'') ∧
         heap w'' = heap driver.
Proof.
  apply (failed_payment_moves_nothing
           (CreditCard (CreditCardPayment.mk 900 "A002" "A001" "1111222233334444"))
           driver_accounts driver).
  vm_compute. reflexivity.
Defined.


(** The receiver is read after the debit: it is the debited sender itself or
    an account that the debit has not touched. *)
Lemma debited_lookup (w : world) (self to_account : loc) (a b : BankAccount)
    (amount : float) :
  heap w !! self = Some (Account a) →
  heap w !! to_account = Some (Account b) →
  ∃ b', heap (debited w self a amount) !! to_account = Some (Account b').
Proof.
  intros Hs Hr. simpl. destruct (decide (self = to_account)) as [<-|Hne].
  - rewrite lookup_insert_eq. eexists. reflexivity.
  - rewrite lookup_insert_ne by exact Hne. exists b. exact Hr.
Qed.

(** X4: when both identifiers of a payment are keys of the mapping and name
    accounts (two accounts or twice the same one), [process] raises nothing
    and returns [True] exactly when the presented credential verifies against
    the sender, the amount is not [<= 0] and the sender's balance is not
    below the amount. *)
Theorem process_result `{StrLower} (p : Payment) (accounts : loc) (w : world)
    (d : dict) (sender receiver : loc) (s r : BankAccount) :
  heap w !! accounts = Some (Dict d) →
  dict_get d (from_account_id p) = Some sender →
  dict_get d (to_account_id p) = Some receiver →
  heap w !! sender = Some (Account s) →
  heap w !! receiver = Some (Account r) →
  fst (process p accounts w) =
    Return (verifies p s && negb (amount p <=? 0)%float
                         && negb (_balance s <? amount p)%float).
Proof.
  intros Hd Hf Ht Hs Hr.
  rewrite (process_eq p accounts w d sender receiver s Hd Hf Ht Hs).
  destruct (verifies p s); [|reflexivity].
  rewrite (transfer_eq w sender receiver s (amount p) Hs).
  destruct (amount p <=? 0)%float; [reflexivity|].
  destruct (_balance s <? amount p)%float; [reflexivity|].
  destruct (debited_lookup w sender receiver s r (amount p) Hs Hr) as [b' Hb'].
  rewrite Hb'. reflexivity.
Qed.

Lemma process_result_witness :
  fst (process (CreditCard (CreditCardPayment.mk 200 "A001" "A002" "1234567890123456"))
         driver_accounts driver) = Return true ∧
  fst (process (CreditCard (CreditCardPayment.mk 200 "A001" "A002" "1234567890123450"))
         driver_accounts driver) = Return false ∧
  fst (process (PayPal (PayPalPayment.mk 0 "A001" "A002" "USER1@example.com"))
         driver_accounts driver) = Return false ∧
  fst (process (PayPal (PayPalPayment.mk 1000.5 "A001" "A001" "USER1@example.com"))
         driver_accounts driver) = Return false.
Proof.
  split; [|split; [|split]].
  - etransitivity; [apply (process_result
             (CreditCard (CreditCardPayment.mk 200 "A001" "A002" "1234567890123456"))
             driver_accounts driver [("A001", 1%positive); ("A002", 2%positive)]
             1%positive 2%positive
             {| _id := "A001"; _balance := 1000;
                _credit_card_number := "1234567890123456";
                _paypal_email := Some "user1@example.com" |}
             {| _id := "A002"; _balance := 500;
                _credit_card_number := "1111222233334444";
                _paypal_email := Some "user2@example.com" |}); reflexivity|].
    reflexivity.
  - etransitivity; [apply (process_result
             (CreditCard (CreditCardPayment.mk 200 "A001" "A002" "1234567890123450"))
             driver_accounts driver [("A001", 1%positive); ("A002", 2%positive)]
             1%positive 2%positive
             {| _id := "A001"; _balance := 1000;
                _credit_card_number := "1234567890123456";
                _paypal_email := Some "user1@example.com" |}
             {| _id := "A002"; _balance := 500;
                _credit_card_number := "1111222233334444";
                _paypal_email := Some "user2@example.com" |}); reflexivity|].
    reflexivity.
  - etransitivity; [apply (process_result
             (PayPal (PayPalPayment.mk 0 "A001" "A002" "USER1@example.com"))
             driver_accounts driver [("A001", 1%positive); ("A002", 2%positive)]
             1%positive 2%positive
             {| _id := "A001"; _balance := 1000;
                _credit_card_number := "1234567890123456";
                _paypal_email := Some "user1@example.com" |}
             {| _id := "A002"; _balance := 500;
                _credit_card_number := "1111222233334444";
                _paypal_email := Some "user2@example.com" |}); reflexivity|].
    reflexivity.
  - etransitivity; [apply (process_result
             (PayPal (PayPalPayment.mk 1000.5 "A001" "A001" "USER1@example.com"))
             driver_accounts driver [("A001", 1%positive); ("A002", 2%positive)]
             1%positive 1%positive
             {| _id := "A001"; _balance := 1000;
                _credit_card_number := "1234567890123456";
                _paypal_email := Some "user1@example.com" |}
             {| _id := "A001"; _balance := 1000;
                _credit_card_number := "1234567890123456";
                _paypal_email := Some "user1@example.com" |}); reflexivity|].
    reflexivity.
Defined.

(** X5: under the same conditions, the lines that [process] prints tell the
    reason of the outcome: the diagnostic of the variant after a failed
    verification; "Error: transfer failed" alone for an amount [<= 0];
    "Insufficient funds" and then "Error: transfer failed" when the balance
    is below the amount; nothing for a payment that goes through. *)
Theorem process_prints `{StrLower} (p : Payment) (accounts : loc) (w : world)
    (d : dict) (sender receiver : loc) (s r : BankAccount) :
  heap w !! accounts = Some (Dict d) →
  dict_get d (from_account_id p) = Some sender →
  dict_get d (to_account_id p) = Some receiver →
  heap w !! sender = Some (Account s) →
  heap w !! receiver = Some (Account r) →
  stdout (snd (process p accounts w)) =
    (stdout w ++
     (if negb (verifies p s) then [diagnostic p]
      else if (amount p <=? 0)%float then ["Error: transfer failed"]
      else if (_balance s <? amount p)%float then
        ["Insufficient funds"; "Error: transfer failed"]
      else []))%list.
Proof.
  intros Hd Hf Ht Hs Hr.
  rewrite (process_eq p accounts w d sender receiver s Hd Hf Ht Hs).
  destruct (verifies p s); [|reflexivity]. simpl negb. cbv iota.
  rewrite (transfer_eq w sender receiver s (amount p) Hs).
  destruct (amount p <=? 0)%float; [reflexivity|].
  destruct (_balance s <? amount p)%float.
  - simpl. rewrite <- app_assoc. reflexivity.
  - destruct (debited_lookup w sender receiver s r (amount p) Hs Hr) as [b' Hb'].
    rewrite Hb'. simpl. rewrite app_nil_r. reflexivity.
Qed.

Lemma process_prints_witness :
  stdout (snd (process (CreditCard (CreditCardPayment.mk 900 "A002" "A001" "1111222233334444"))
                 driver_accounts driver)) =
    ["Insufficient funds"; "Error: transfer failed"] ∧
  stdout (snd (process (CreditCard (CreditCardPayment.mk (-5) "A002" "A001" "1111222233334444"))
                 driver_accounts driver)) =
    ["Error: transfer failed"] ∧
  stdout (snd (process (CreditCard (CreditCardPayment.mk 500 "A002" "A001" "1111222233334444"))
                 driver_accounts driver)) = [].
Proof.
  split; [|split].
  - etransitivity; [apply (process_prints
             (CreditCard (CreditCardPayment.mk 900 "A002" "A001" "1111222233334444"))
             driver_accounts driver [("A001", 1%positive); ("A002", 2%positive)]
             2%positive 1%positive
             {| _id := "A002"; _balance := 500;
                _credit_card_number := "1111222233334444";
                _paypal_email := Some "user2@example.com" |}
             {| _id := "A001"; _balance := 1000;
                _credit_card_number := "1234567890123456";
                _paypal_email := Some "user1@example.com" |}); reflexivity|].
    reflexivity.
  - etransitivity; [apply (process_prints
             (CreditCard (CreditCardPayment.mk (-5) "A002" "A001" "1111222233334444"))
             driver_accounts driver [("A001", 1%positive); ("A002", 2%positive)]
             2%positive 1%positive
             {| _id := "A002"; _balance := 500;
                _credit_card_number := "1111222233334444";
                _paypal_email := Some "user2@example.com" |}
             {| _id := "A001"; _balance := 1000;
                _credit_card_number := "1234567890123456";
                _paypal_email := Some "user1@example.com" |}); reflexivity|].
    reflexivity.
  - etransitivity; [apply (process_prints
             (CreditCard (CreditCardPayment.mk 500 "A002" "A001" "1111222233334444"))
             driver_accounts driver [("A001", 1%positive); ("A002", 2%positive)]
             2%positive 1%positive
             {| _id := "A002"; _balance := 500;
                _credit_card_number := "1111222233334444";
                _paypal_email := Some "user2@example.com" |}
             {| _id := "A001"; _balance := 1000;
                _credit_card_number := "1234567890123456";
                _paypal_email := Some "user1@example.com" |}); reflexivity|].
    reflexivity.
Defined.

(** ** Edges of transfer *)

(** X6: [transfer] debits before it looks at the receiver, and nothing is
    rolled back: with an accepted amount and a [to_account] that is not an
    account (here a mapping, which has no attribute [_balance]), the call
    raises [AttributeError] after the sender's balance has been decreased;
    every other object is as before. *)
Theorem transfer_no_rollback (w : world) (self to_account : loc) (a : BankAccount)
    (d : dict) (amount : float) :
  heap w !! self = Some (Account a) →
  heap w !! to_account = Some (Dict d) →
  (amount <=? 0)%float = false →
  (_balance a <? amount)%float = false →
  ∃ w', transfer self amount to_account w = (Raise AttributeError, w') ∧
        balance_of w' self = Some (_balance a - amount)%float ∧
        (∀ l, l ≠ self → heap w' !! l = heap w !! l) ∧
        stdout w' = stdout w.
Proof.
  intros Hs Hr H0 Hb.
  assert (Hne : self ≠ to_account) by (intros ->; congruence).
  exists (debited w self a amount).
  rewrite (transfer_eq w self to_account a amount Hs), H0, Hb.
  split.
  - simpl. rewrite lookup_insert_ne by exact Hne. rewrite Hr. reflexivity.
  - split; [apply balance_of_debited_eq|]. split; [|reflexivity].
    intros l Hl. simpl. apply lookup_insert_ne. intros E. apply Hl. symmetry. exact E.
Qed.

Lemma transfer_no_rollback_witness :
  ∃ w', transfer 1%positive 300 driver_accounts driver = (Raise AttributeError, w') ∧
        balance_of w' 1%positive = Some 700%float ∧
        (∀ l, l ≠ 1%positive → heap w' !! l = heap driver !! l) ∧
        stdout w' = stdout driver.
Proof.
  apply (transfer_no_rollback driver 1%positive driver_accounts
           {| _id := "A001"; _balance := 1000;
              _credit_card_number := "1234567890123456";
              _paypal_email := Some "user1@example.com" |}
           [("A001", 1%positive); ("A002", 2%positive)] 300); reflexivity.
Defined.

Lemma SFcompare_refl (x : spec_float) :
  x ≠ S754_nan → SFcompare x x = Some Eq.
Proof.
  intros Hx. destruct x as [s|s| |s m e]; simpl.
  - reflexivity.
  - destruct s; reflexivity.
  - destruct (Hx eq_refl).
  - change (Pos.compare_cont Eq m m) with (m ?= m)%positive.
    rewrite Z.compare_refl, Pos.compare_refl. destruct s; reflexivity.
Qed.

(** A float is NaN exactly when its specification is [S754_nan]. *)
Lemma is_nan_spec (x : float) : is_nan x = true ↔ Prim2SF x = S754_nan.
Proof.
  unfold is_nan. rewrite FloatAxioms.eqb_spec. unfold SFeqb. split.
  - intros Hn. destruct (Prim2SF x) as [s|s| |s m e] eqn:E; try reflexivity;
      rewrite SFcompare_refl in Hn by discriminate; discriminate Hn.
  - intros ->. reflexivity.
Qed.

(** X7: [transfer] does not reject an amount that is NaN: both guards are
    comparisons, and every comparison with NaN is false. Between two
    accounts (or from an account to itself) the call returns [True] and
    leaves NaN as the balance of the sender and of the receiver. *)
Theorem transfer_nan_amount (w : world) (self to_account : loc) (a b : BankAccount)
    (amount : float) :
  heap w !! self = Some (Account a) →
  heap w !! to_account = Some (Account b) →
  is_nan amount = true →
  ∃ w' x y, transfer self amount to_account w = (Return true, w') ∧
            balance_of w' self = Some x ∧ is_nan x = true ∧
            balance_of w' to_account = Some y ∧ is_nan y = true.
Proof.
  intros Hs Hr Hn. apply is_nan_spec in Hn.
  assert (H0 : (amount <=? 0)%float = false).
  { rewrite leb_spec, Hn. reflexivity. }
  assert (Hb : (_balance a <? amount)%float = false).
  { rewrite ltb_spec, Hn. destruct (Prim2SF (_balance a)); reflexivity. }
  assert (Hsub : ∀ x, is_nan (x - amount)%float = true).
  { intros x. apply is_nan_spec. rewrite sub_spec, Hn.
    destruct (Prim2SF x); reflexivity. }
  assert (Hadd : ∀ x, is_nan (x + amount)%float = true).
  { intros x. apply is_nan_spec. rewrite add_spec, Hn.
    destruct (Prim2SF x); reflexivity. }
  rewrite (transfer_eq w self to_account a amount Hs), H0, Hb.
  destruct (decide (self = to_account)) as [<-|Hne].
  - simpl. rewrite lookup_insert_eq. eexists. eexists. eexists.
    split; [reflexivity|].
    unfold balance_of, credited. simpl. rewrite lookup_insert_eq. simpl.
    split; [reflexivity|]. split; [apply Hadd|]. split; [reflexivity | apply Hadd].
  - simpl. rewrite lookup_insert_ne by exact Hne. rewrite Hr.
    eexists. eexists. eexists. split; [reflexivity|].
    split.
    { rewrite balance_of_credited_ne by (intros E; apply Hne; symmetry; exact E).
      apply balance_of_debited_eq. }
    split; [apply Hsub|]. split; [apply balance_of_credited_eq | apply Hadd].
Qed.

Lemma transfer_nan_amount_witness :
  ∃ w' x y, transfer 1%positive nan 2%positive (two_accounts 1000 500) = (Return true, w') ∧
            balance_of w' 1%positive = Some x ∧ is_nan x = true ∧
            balance_of w' 2%positive = Some y ∧ is_nan y = true.
Proof.
  apply (transfer_nan_amount (two_accounts 1000 500) 1%positive 2%positive
           (account "A" 1000) (account "B" 500) nan); reflexivity.
Defined.

(** ** Credentials and mappings over a run *)

Lemma stable_same_heap (w w' : world) : heap w' = heap w → stable w w'.
Proof.
  intros E l. rewrite E.
  destruct (heap w !! l) as [[a|d]|];
    [exists a; repeat split; reflexivity | reflexivity | exact I].
Qed.

Lemma stable_trans (w1 w2 w3 : world) : stable w1 w2 → stable w2 w3 → stable w1 w3.
Proof.
  intros H12 H23 l. specialize (H12 l). specialize (H23 l).
  destruct (heap w1 !! l) as [[a|d]|]; [| |exact I].
  - destruct H12 as (a2 & E2 & I2 & C2 & P2). rewrite E2 in H23.
    destruct H23 as (a3 & E3 & I3 & C3 & P3).
    exists a3. split; [exact E3|]. repeat split; congruence.
  - rewrite H12 in H23. exact H23.
Qed.

Lemma stable_put (w : world) (l : loc) (a : BankAccount) (value : float)
    (out : list string) :
  heap w !! l = Some (Account a) →
  stable w {| heap := <[l := Account (with_balance a value)]> (heap w); stdout := out |}.
Proof.
  intros Hl l'. simpl. destruct (decide (l = l')) as [<-|Hne].
  - rewrite Hl, lookup_insert_eq. eexists. split; [reflexivity | repeat split].
  - rewrite lookup_insert_ne by exact Hne.
    destruct (heap w !! l') as [[a'|d]|];
      [exists a'; repeat split; reflexivity | reflexivity | exact I].
Qed.

Lemma stable_transfer (w : world) (self to_account : loc) (amount : float) :
  stable w (snd (transfer self amount to_account w)).
Proof.
  destruct (heap w !! self) as [[a| ]| ] eqn:Hs.
  2,3: unfold transfer, bind, get_account; rewrite Hs;
       apply stable_same_heap; reflexivity.
  rewrite (transfer_eq w self to_account a amount Hs).
  destruct (amount <=? 0)%float; [apply stable_same_heap; reflexivity|].
  destruct (_balance a <? amount)%float; [apply stable_same_heap; reflexivity|].
  assert (Hd : stable w (debited w self a amount)) by (apply stable_put; exact Hs).
  destruct (heap (debited w self a amount) !! to_account) as [[b| ]| ] eqn:Hr;
    simpl; try exact Hd.
  eapply stable_trans; [exact Hd|]. apply stable_put. exact Hr.
Qed.

Lemma stable_process `{StrLower} (p : Payment) (accounts : loc) (w : world) :
  stable w (snd (process p accounts w)).
Proof.
  destruct (heap w !! accounts) as [[ |d]| ] eqn:Hd.
  1,3: rewrite process_unfold; unfold bind at 1; unfold getitem at 1; rewrite Hd;
       apply stable_same_heap; reflexivity.
  rewrite (process_missing p accounts w d Hd).
  destruct (dict_get d (from_account_id p)) as [sender|] eqn:Hf;
    [|apply stable_same_heap; reflexivity].
  destruct (dict_get d (to_account_id p)) as [receiver|] eqn:Ht;
    [|apply stable_same_heap; reflexivity].
  destruct (heap w !! sender) as [[s| ]| ] eqn:Hs.
  2,3: rewrite process_unfold;
       unfold bind at 1; unfold getitem at 1; rewrite Hd, Hf;
       unfold bind at 1; unfold getitem at 1; rewrite Hd, Ht;
       unfold bind at 1; unfold get_account at 1; rewrite Hs;
       apply stable_same_heap; reflexivity.
  rewrite (process_eq p accounts w d sender receiver s Hd Hf Ht Hs).
  destruct (verifies p s); [|apply stable_same_heap; reflexivity].
  pose proof (stable_transfer w sender receiver (amount p)) as Hst.
  destruct (transfer sender (amount p) receiver w) as [[[]|e] w']; exact Hst.
Qed.

Lemma stable_balance_setter (w : world) (self : loc) (value : float) :
  stable w (snd (balance_setter self value w)).
Proof.
  destruct (heap w !! self) as [[a| ]| ] eqn:Hs.
  2,3: unfold balance_setter, bind, get_account; rewrite Hs;
       apply stable_same_heap; reflexivity.
  rewrite (balance_setter_eq w self a value Hs).
  destruct (value <? 0)%float; [apply stable_same_heap; reflexivity|].
  apply stable_put. exact Hs.
Qed.

(** A new account takes a reference that no object has. *)
Lemma stable_init (w : world) (id : string) (value : float) (card : string)
    (email : option string) :
  stable w (snd (__init__ id value card email w)).
Proof.
  intros l. simpl.
  assert (Hfresh : heap w !! fresh (dom (heap w)) = None).
  { apply not_elem_of_dom. apply is_fresh. }
  destruct (decide (fresh (dom (heap w)) = l)) as [<-|Hne].
  - rewrite Hfresh. exact I.
  - rewrite lookup_insert_ne by exact Hne.
    destruct (heap w !! l) as [[a|d]|];
      [exists a; repeat split; reflexivity | reflexivity | exact I].
Qed.

Lemma stable_run `{StrLower} (ops : list op) (w : world) : stable w (run ops w).
Proof.
  unfold run. revert w. induction ops as [|o ops IH]; intros w.
  - apply stable_same_heap. reflexivity.
  - simpl. eapply stable_trans; [|apply IH].
    destruct o; simpl;
      [apply stable_init | apply stable_balance_setter
      | apply stable_transfer | apply stable_process].
Qed.

(** X8: the identifier, the card number and the e-mail of an account never
    change after its construction, and a mapping is never changed: after any
    run of constructions, balance assignments, transfers and payments, every
    account that existed is still an account at the same reference with the
    same three attributes, so that every card number and every e-mail
    verifies against it as before, and every mapping that existed has the
    same keys and values. *)
Theorem credentials_never_change `{StrLower} (ops : list op) (w : world) (l : loc) :
  match heap w !! l with
  | Some (Account a) =>
      ∃ a', heap (run ops w) !! l = Some (Account a') ∧
            same_secrets a a' ∧
            (∀ card_number, verify_credit_card a' card_number =
                            verify_credit_card a card_number) ∧
            (∀ email, verify_paypal_email a' email = verify_paypal_email a email)
  | Some (Dict d) => heap (run ops w) !! l = Some (Dict d)
  | None => True
  end.
Proof.
  pose proof (stable_run ops w l) as Hst.
  destruct (heap w !! l) as [[a|d]|]; [|exact Hst|exact I].
  destruct Hst as (a' & Ha' & Hid & Hcard & Hmail).
  exists a'. split; [exact Ha'|]. split; [repeat split; assumption|].
  split.
  - intros c. unfold verify_credit_card. rewrite Hcard. reflexivity.
  - intros e. unfold verify_paypal_email. rewrite Hmail. reflexivity.
Qed.

(** ** A batch of payments *)

Lemma maps_accounts_get (w : world) (accounts : loc) (d : dict) (key : string) (l : loc) :
  maps_accounts w accounts d →
  dict_get d key = Some l →
  ∃ a, heap w !! l = Some (Account a).
Proof.
  intros [_ Hall]. induction d as [|[k v] d IH]; simpl; [intros E; discriminate E|].
  simpl in Hall. apply andb_prop in Hall as [Hv Hall].
  destruct (String.eqb k key).
  - intros [= <-]. unfold is_account in Hv.
    destruct (heap w !! v) as [[a| ]| ]; try discriminate Hv. exists a. reflexivity.
  - apply IH. exact Hall.
Qed.

Lemma maps_accounts_stable (w w' : world) (accounts : loc) (d : dict) :
  maps_accounts w accounts d → stable w w' → maps_accounts w' accounts d.
Proof.
  intros [Hd Hall] Hst. split.
  - specialize (Hst accounts). rewrite Hd in Hst. exact Hst.
  - apply forallb_forall. intros [k v] Hin.
    pose proof (proj1 (forallb_forall _ _) Hall (k, v) Hin) as Hv.
    unfold is_account in *. simpl in *. specialize (Hst v).
    destruct (heap w !! v) as [[a| ]| ]; try discriminate Hv.
    destruct Hst as (a' & -> & _). reflexivity.
Qed.

(** A payment whose identifiers resolve to accounts returns a boolean. *)
Lemma process_resolved `{StrLower} (p : Payment) (accounts : loc) (w : world) (d : dict) :
  maps_accounts w accounts d →
  resolves d p = true →
  ∃ b w', process p accounts w = (Return b, w').
Proof.
  intros Hm Hres. unfold resolves in Hres.
  destruct (dict_get d (from_account_id p)) as [sender|] eqn:Hf; [|discriminate Hres].
  destruct (dict_get d (to_account_id p)) as [receiver|] eqn:Ht; [|discriminate Hres].
  destruct (maps_accounts_get w accounts d _ sender Hm Hf) as [s Hs].
  destruct (maps_accounts_get w accounts d _ receiver Hm Ht) as [r Hr].
  rewrite (process_eq p accounts w d sender receiver s (proj1 Hm) Hf Ht Hs).
  destruct (verifies p s); [|eexists; eexists; reflexivity].
  rewrite (transfer_eq w sender receiver s (amount p) Hs).
  destruct (amount p <=? 0)%float; [eexists; eexists; reflexivity|].
  destruct (_balance s <? amount p)%float; [eexists; eexists; reflexivity|].
  destruct (debited_lookup w sender receiver s r (amount p) Hs Hr) as [b' Hb'].
  rewrite Hb'. eexists. eexists. reflexivity.
Qed.

(** X9: a batch run by the loop of the driver. When the mapping maps its
    keys to accounts and both identifiers of every payment are keys, the loop
    goes through the whole batch and returns, whatever payments fail on a
    credential, an amount or funds; the mapping still maps its keys to
    accounts afterwards. When the batch is followed by a payment with an
    unknown identifier, the loop stops there with [KeyError]: the payments
    before it stay applied (the state is the one after them) and the
    payments after it are not processed. *)
Theorem batch_runs_until_unknown `{StrLower} (payments : list Payment) (accounts : loc)
    (w : world) (d : dict) :
  maps_accounts w accounts d →
  forallb (resolves d) payments = true →
  ∃ w1, process_all payments accounts w = (Return tt, w1) ∧
        maps_accounts w1 accounts d ∧
        ∀ (p : Payment) (rest : list Payment),
          resolves d p = false →
          ∃ key, process_all (payments ++ p :: rest) accounts w =
                   (Raise (KeyError key), w1) ∧
                 (key = from_account_id p ∨ key = to_account_id p).
Proof.
  revert w. induction payments as [|q payments IH]; intros w Hm Hall.
  - exists w. split; [reflexivity|]. split; [exact Hm|].
    intros p rest Hp. simpl. unfold bind at 1.
    rewrite (process_missing p accounts w d (proj1 Hm)).
    unfold resolves in Hp.
    destruct (dict_get d (from_account_id p)) as [sender|].
    + destruct (dict_get d (to_account_id p)) as [receiver|]; [discriminate Hp|].
      exists (to_account_id p). split; [reflexivity | right; reflexivity].
    + exists (from_account_id p). split; [reflexivity | left; reflexivity].
  - simpl in Hall. apply andb_prop in Hall as [Hq Hall].
    destruct (process_resolved q accounts w d Hm Hq) as (b & w' & Hpq).
    pose proof (stable_process q accounts w) as Hst. rewrite Hpq in Hst. simpl in Hst.
    set (w2 := printed (printed w' ("Successfully? " +:+ str_bool b))
                 "------------------------------").
    assert (Hm2 : maps_accounts w2 accounts d).
    { apply (maps_accounts_stable w w2); [exact Hm|].
      eapply stable_trans; [exact Hst|]. apply stable_same_heap. reflexivity. }
    destruct (IH w2 Hm2 Hall) as (w1 & Hall1 & Hm1 & Hstop).
    exists w1. split.
    { simpl. unfold bind at 1. rewrite Hpq. exact Hall1. }
    split; [exact Hm1|].
    intros p rest Hp. destruct (Hstop p rest Hp) as (key & Hk & Hkey).
    exists key. split; [|exact Hkey].
    simpl. unfold bind at 1. rewrite Hpq. exact Hk.
Qed.

Lemma batch_runs_until_unknown_witness :
  ∃ w1, process_all main_payments driver_accounts driver = (Return tt, w1) ∧
        maps_accounts w1 driver_accounts [("A001", 1%positive); ("A002", 2%positive)] ∧
        ∀ (p : Payment) (rest : list Payment),
          resolves [("A001", 1%positive); ("A002", 2%positive)] p = false →
          ∃ key, process_all (main_payments ++ p :: rest) driver_accounts driver =
                   (Raise (KeyError key), w1) ∧
                 (key = from_account_id p ∨ key = to_account_id p).
Proof.
  apply (batch_runs_until_unknown main_payments driver_accounts driver
           [("A001", 1%positive); ("A002", 2%positive)]).
  - split; reflexivity.
  - reflexivity.
Defined.

(** ** The e-mail check on ASCII texts *)

(** X10: on ASCII texts, where the ASCII lowercasing of the model is what
    [str.lower] does, the e-mail check accepts exactly the presented e-mails
    that are the stored one up to the case of letters, character by
    character: same length, and at each place the same character or the
    capital and the small form of one ASCII letter. An absent stored e-mail
    counts as the empty text. *)
Theorem verify_paypal_email_same_text (a : BankAccount) (email : string) :
  is_ascii email = true →
  is_ascii (match _paypal_email a with Some s => s | None => EmptyString end) = true →
  (verify_paypal_email a email = true ↔
   same_text email
     (match _paypal_email a with Some s => s | None => EmptyString end) = true).
Proof.
  intros _ _. unfold verify_paypal_email, or_empty. simpl lower.
  rewrite String.eqb_eq. symmetry. apply same_text_lower.
Qed.

Lemma verify_paypal_email_same_text_witness :
  (verify_paypal_email
     {| _id := "A001"; _balance := 1000;
        _credit_card_number := "1234567890123456";
        _paypal_email := Some "user1@example.com" |} "User1@Example.COM" = true ↔
   same_text "User1@Example.COM" "user1@example.com" = true) ∧
  (verify_paypal_email
     {| _id := "A009"; _balance := 0;
        _credit_card_number := "1234567890123456";
        _paypal_email := None |} "user1@example.com" = true ↔
   same_text "user1@example.com" EmptyString = true).
Proof.
  split.
  - apply (verify_paypal_email_same_text
             {| _id := "A001"; _balance := 1000;
                _credit_card_number := "1234567890123456";
                _paypal_email := Some "user1@example.com" |} "User1@Example.COM");
      reflexivity.
  - apply (verify_paypal_email_same_text
             {| _id := "A009"; _balance := 0;
                _credit_card_number := "1234567890123456";
                _paypal_email := None |} "user1@example.com");
      reflexivity.
Defined.

(** The check at work: the case of letters is ignored, nothing else is. *)
Example verify_paypal_email_cases :
  verify_paypal_email (account "A" 0) "a@Example.COM" = true ∧
  verify_paypal_email (account "A" 0) "a@example.com " = false ∧
  verify_paypal_email (account "A" 0) "a@examp1e.com" = false ∧
  same_text "q" "Q" = true ∧
  same_text "@" "`" = false ∧
  same_text "[" "{" = false.
Proof. repeat split; reflexivity. Qed.

(** ** The report of the driver *)

Lemma print_all_accounts (w : world) (accs : list loc) :
  forallb (is_account w) accs = true →
  ∃ w', print_all accs w = (Return tt, w') ∧
        heap w' = heap w ∧
        stdout w' = (stdout w ++ map (account_text w) accs)%list.
Proof.
  revert w. induction accs as [|acc accs IH]; intros w Hall.
  - exists w. split; [reflexivity|]. split; [reflexivity|].
    simpl. rewrite app_nil_r. reflexivity.
  - simpl in Hall. apply andb_prop in Hall as [Hacc Hall].
    unfold is_account in Hacc.
    destruct (heap w !! acc) as [[a| ]| ] eqn:Ha; try discriminate Hacc.
    assert (Hall' : forallb (is_account (printed w (__str__ a))) accs = true) by exact Hall.
    destruct (IH (printed w (__str__ a)) Hall') as (w' & Hp & Hh & Hout).
    exists w'. split.
    { simpl. unfold bind at 1. unfold get_account at 1. rewrite Ha. exact Hp. }
    split; [exact Hh|].
    rewrite Hout. simpl. unfold account_text at 2. rewrite Ha.
    rewrite <- app_assoc. reflexivity.
Qed.

(** X11: the report that ends the driver. When the mapping maps its keys to
    accounts, the last loop of [main] prints one line per entry of the
    mapping, in the order in which the keys were inserted, each line being
    the text [__str__] of the account of that entry; it raises nothing and
    changes no object. *)
Theorem report_lists_accounts (w : world) (accounts : loc) (d : dict) :
  maps_accounts w accounts d →
  ∃ w', (accs <- values accounts ;; print_all accs)%py w = (Return tt, w') ∧
        heap w' = heap w ∧
        stdout w' = (stdout w ++ map (λ item, account_text w (snd item)) d)%list ∧
        length (stdout w') = (length (stdout w) + length d)%nat.
Proof.
  intros [Hd Hall].
  assert (Hall' : forallb (is_account w) (dict_values d) = true).
  { unfold dict_values. clear Hd. induction d as [|[k v] d IH]; [reflexivity|].
    simpl in *. apply andb_prop in Hall as [Hv Hall]. rewrite Hv. apply IH. exact Hall. }
  destruct (print_all_accounts w (dict_values d) Hall') as (w' & Hp & Hh & Hout).
  exists w'. split.
  { unfold bind at 1. unfold values. rewrite Hd. exact Hp. }
  split; [exact Hh|].
  assert (Hmap : map (account_text w) (dict_values d) =
                 map (λ item, account_text w (snd item)) d).
  { unfold dict_values. rewrite map_map. reflexivity. }
  split.
  - rewrite Hout, Hmap. reflexivity.
  - rewrite Hout, Hmap, length_app, length_map. reflexivity.
Qed.

Lemma report_lists_accounts_witness :
  ∃ w', (accs <- values driver_accounts ;; print_all accs)%py driver = (Return tt, w') ∧
        heap w' = heap driver ∧
        stdout w' =
          [ "BankAccount(id=A001, balance=1000.00, card=1234567890123456, paypal=user1@example.com)";
            "BankAccount(id=A002, balance=500.00, card=1111222233334444, paypal=user2@example.com)" ] ∧
        length (stdout w') = 2%nat.
Proof.
  apply (report_lists_accounts driver driver_accounts
           [("A001", 1%positive); ("A002", 2%positive)]).
  split; reflexivity.
Defined.
